(** * File-Analysis-Tool: the scanner and the reporter of
      [file_system_info.py], embedded and verified.

    Strings.  A string is the sequence of the UTF-8 bytes of a Python
    [str]; a byte of a file name that does not decode stands for itself.

    Sizes.  [round(file_size / 1024, 2)] is a float64: the double nearest to
    a number with two decimals.  A record carries that number as its count
    of hundredths, an integer: 2.0 KB is [200], 0.5 KB is [50]; the double
    it stands for is [f64.of_hundredths].  [size_kb] is the count of the
    code and [f64.size_kb] its double; for a file of less than 2^53 bytes,
    where the quotient by 1024 is exact in float64, the count is
    [round2 (true_div _ 1024)].  [pd.groupby_sum] adds the doubles of a group in the order of the
    rows, by the compensated summation of the dataframe library;
    [pd.groupby_sum_plain] adds them plainly and [pd.groupby_sum_exact] adds
    the two-decimal numbers themselves.

    File system.  A tree of directories and of entries that are not
    directories, read through a path-resolution function.  An entry that is
    listed and whose path does not resolve, as a dangling link or a file
    removed during the scan, is a world in which the function does not show
    the tree.  Directories that cannot be listed, which the walk skips, are
    outside the model.

    Reporter.  The calls on the window toolkit and on the PDF writer are
    logged and return; their failures, as of text that the PDF writer cannot
    encode, are outside the model, and the theorems on the PDF are stated
    for text that encodes to Latin-1. *)

From Stdlib Require Import ZArith QArith Qabs Lia Ascii String SpecFloat.
From stdpp Require Import base option list strings gmap fin_maps.

Set Warnings "-register-all".

Local Open Scope string_scope.
Local Open Scope list_scope.
Local Open Scope Z_scope.

(** ** Numbers of the script *)

(** The quotient [a / b] of two integers as a rational.  Python's [a / b]
    is the double nearest to it, [f64.div_pow2] for [b] a power of two; for
    [a] below 2^53 and [b = 1024] that double is the quotient itself. *)
Definition true_div (a b : Z) : Q := Qdiv (inject_Z a) (inject_Z b).

(** [round(x, 2)], in hundredths: the nearest two-decimal number, a tie
    going to the even hundredth. *)
Definition round2 (x : Q) : Z :=
  let num := Qnum x * 100 in
  let den := Zpos (Qden x) in
  let q := num / den in
  let r := num mod den in
  if 2 * r <? den then q
  else if den <? 2 * r then q + 1
  else if Z.even q then q else q + 1.

(** The number a count of hundredths stands for. *)
Definition kb (hundredths : Z) : Q := hundredths # 100.

(** ** float64 *)

(** A double is a [spec_float]: a zero, an infinity, not a number, or
    [S754_finite s m e], which is [m * 2^e], negated when [s] is set. *)

Module f64.

Definition prec : Z := 53.
Definition emax : Z := 1024.

Definition zero : spec_float := S754_zero false.

(** [x + y], rounded to nearest, ties to even. *)
Definition add : spec_float → spec_float → spec_float := SFadd prec emax.

(** [x - y], rounded to nearest, ties to even. *)
Definition sub : spec_float → spec_float → spec_float := SFsub prec emax.

(** The doubles of a list added from the left. *)
Definition sum (values : list spec_float) : spec_float := foldl add zero values.

Definition is_nan (x : spec_float) : bool :=
  match x with
  | S754_nan => true
  | _ => false
  end.


(** [n / 2**k] on integers: the double nearest to the quotient, ties to
    even. *)
Definition div_pow2 (n k : Z) : spec_float :=
  binary_normalize prec emax n (- k) false.

(** The double nearest to [n / d], ties to even: the division of IEEE 754
    on the two integers, rounded once. *)
Definition nearest (n : Z) (d : positive) : spec_float :=
  match n with
  | Z0 => zero
  | Zpos p => SFdiv prec emax (S754_finite false p 0) (S754_finite false d 0)
  | Zneg p => SFdiv prec emax (S754_finite true p 0) (S754_finite false d 0)
  end.

(** The double that a number of two decimals, given by its count of
    hundredths, is read as. *)
Definition of_hundredths (h : Z) : spec_float := nearest h 100.

(** The rational that a finite double is. *)
Definition to_Q (x : spec_float) : Q :=
  match x with
  | S754_finite s m e =>
      let n := cond_Zopp s (Zpos m) in
      match e with
      | Zneg k => n # (2 ^ k)
      | _ => inject_Z (n * 2 ^ e)
      end
  | _ => 0%Q
  end.

(** The rationals that the doubles of a list are, added exactly. *)
Definition sum_Q (values : list spec_float) : Q :=
  foldr (λ x acc, Qplus (to_Q x) acc) 0%Q values.

(** The two-decimal number nearest to the value of [x], a tie going to the
    even hundredth, as its count of hundredths. *)
Definition hundredths (x : spec_float) : Z := round2 (to_Q x).

(** [round(x, 2)]: the double of the two-decimal number nearest to the
    value of [x]; [x] itself when it is a zero, an infinity or not a
    number. *)
Definition round_2 (x : spec_float) : spec_float :=
  match x with
  | S754_finite _ _ _ => of_hundredths (hundredths x)
  | _ => x
  end.

(** [round(file_size / 1024, 2)] *)
Definition size_kb (file_size : N) : spec_float :=
  round_2 (div_pow2 (Z.of_N file_size) 10).

End f64.

(** ** Records *)

(** One dict of [file_data]; [File_Size_KB] is the count of hundredths of
    the two-decimal number whose double the dict holds. *)
Record file_record := {
  Folder : string;
  File_Name : string;
  File_Size_KB : Z;
  File_Type : string
}.

(** [round(file_size / 1024, 2)], as the count of hundredths of the
    two-decimal number whose double it is; [file_size], the [st_size] of a
    file, is below 2^63. *)
Definition size_kb (file_size : N) : Z :=
  f64.hundredths (f64.div_pow2 (Z.of_N file_size) 10).

(** [row['File Size (KB)']], the double. *)
Definition File_Size (row : file_record) : spec_float :=
  f64.of_hundredths (File_Size_KB row).

(** ** The dataframe operations the reporter uses *)

Module pd.

(** [pd.DataFrame(file_data)]: the rows, in order. *)
Definition DataFrame (file_data : list file_record) : list file_record :=
    file_data.

(** [df.empty] *)
Definition empty (df : list file_record) : bool :=
    match df with
    | [] => true
    | _ :: _ => false
    end.

Section grouping.
Context {S V : Type} (step : S → V → S) (init : S).

(** One row enters the group of its key: the state of the group, [init]
    before its first row, takes the value of the row. *)
Definition accumulate (key : file_record → string) (col : file_record → V)
        (acc : gmap string S) (row : file_record) : gmap string S :=
      partial_alter (λ o, Some (step (default init o) (col row))) (key row) acc.

(** Split the rows by [key], combine column [col] inside each group, row
    after row. *)
Definition grouped (key : file_record → string) (col : file_record → V)
        (df : list file_record) : gmap string S :=
      foldl (accumulate key col) ∅ df.
End grouping.

Section totals.
Context {V : Type} (add : V → V → V) (zero : V).

(** Combine the values of a series over all its keys. *)
Definition series_sum (s : gmap string V) : V :=
      map_fold (λ _ v acc, add v acc) zero s.

(** Combine a column over all rows. *)
Definition column_sum (col : file_record → V) (df : list file_record) : V :=
      foldr (λ row acc, add (col row) acc) zero df.
End totals.

(** One step of the compensated summation of [group_sum]: the running sum
    of the group and its compensation take the value [val]. *)
Definition kahan_step (st : spec_float * spec_float) (val : spec_float)
      : spec_float * spec_float :=
    let '(sumx, compensation) := st in
    let y := f64.sub val compensation in
    let t := f64.add sumx y in
    let c := f64.sub (f64.sub t sumx) y in
    (t, if f64.is_nan c then f64.zero else c).

(** The compensated sum of a list of doubles. *)
Definition kahan_sum (values : list spec_float) : spec_float :=
    fst (foldl kahan_step (f64.zero, f64.zero) values).

(** [df.groupby(key)['File Size (KB)'].sum()]: the doubles of each group
    added in the order of the rows, by compensated summation. *)
Definition groupby_sum (key : file_record → string) (col : file_record → Z)
      (df : list file_record) : gmap string spec_float :=
    fst <$> grouped kahan_step (f64.zero, f64.zero) key
              (λ row, f64.of_hundredths (col row)) df.

(** The same sums by plain addition, as the versions of the library that
    do not compensate make them. *)
Definition groupby_sum_plain (key : file_record → string) (col : file_record → Z)
      (df : list file_record) : gmap string spec_float :=
    grouped f64.add f64.zero key (λ row, f64.of_hundredths (col row)) df.

(** The sums of the two-decimal numbers themselves, in hundredths. *)
Definition groupby_sum_exact (key : file_record → string) (col : file_record → Z)
      (df : list file_record) : gmap string Z :=
    grouped Z.add 0 key col df.

(** [df[key].value_counts()] *)
Definition value_counts (key : file_record → string)
      (df : list file_record) : gmap string nat :=
    grouped Nat.add 0%nat key (λ _, 1%nat) df.

End pd.


(** ** Calls, exceptions and the monad of the script *)

(** A chart receives the series it draws. *)
Inductive series :=
| Sizes (s : gmap string spec_float)
| Counts (s : gmap string nat).

(** The calls the script makes on the world outside it, as a log entry. *)
Inductive call :=
| input (prompt : string)
| print (msg : string)
| os_path_exists (path : string)
| os_walk (top : string)
| os_path_getsize (path : string)
| mimetypes_guess_type (path : string)
| treelib_Tree
| tree_contains (nid : string)
| tree_create_node (tag nid : string) (parent : option string)
| qt (method : string)
| addPlot
| nextRow
| create_bar_chart (title : string) (data : series)
| fpdf (method : string)
| pdf_cell (txt : string)
| pdf_cell_field (column : string) (row : file_record)
| pdf_output (filename : string).

Inductive exn :=
| FileNotFoundError (msg : string)
| DuplicatedNodeIdError (nid : string)
| NodeIDAbsentError (nid : string)
| MultipleRootError.

Inductive outcome (A : Type) :=
| Return (a : A)
| Raise (e : exn).
Arguments Return {A} a.
Arguments Raise {A} e.

(** A computation: the calls it made, in order, and how it ended. *)
Definition M (A : Type) : Type := list call * outcome A.

Definition ret {A} (a : A) : M A := ([], Return a).

Definition raise {A} (e : exn) : M A := ([], Raise e).

Definition bind {A B} (c : M A) (k : A → M B) : M B :=
  match c with
  | (log, Return a) => let '(log', r) := k a in (log ++ log', r)
  | (log, Raise e) => (log, Raise e)
  end.

Notation "'let!' x ':=' c 'in' k" := (bind c (λ x, k))
  (at level 10, x pattern, c at level 100, k at level 200, only parsing).
Notation "'do!' c 'in' k" := (bind c (λ _, k))
  (at level 10, c at level 100, k at level 200, only parsing).

(** Log one call and give its result. *)
Definition perform {A} (c : call) (r : outcome A) : M A := ([c], r).

(** [try: c  except exn as e: h e] *)
Definition try_except {A} (c : M A) (h : exn → M A) : M A :=
  match c with
  | (log, Return a) => (log, Return a)
  | (log, Raise e) => let '(log', r) := h e in (log ++ log', r)
  end.

(** [for x in xs: s = body x s] *)
Fixpoint for_each {X S} (xs : list X) (body : X → S → M S) (s : S) : M S :=
  match xs with
  | [] => ret s
  | x :: xs' => let! s' := body x s in for_each xs' body s'
  end.

Definition calls {A} (c : M A) : list call := fst c.
Definition result {A} (c : M A) : outcome A := snd c.

(** ** The tree library *)

Module treelib.

Record Node := { tag : string; predecessor : option string }.

Record Tree := { nodes : gmap string Node; root : option string }.

(** [treelib.Tree()] *)
Definition new : Tree := {| nodes := ∅; root := None |}.

(** [tree.contains(nid)] *)
Definition contains (t : Tree) (nid : string) : bool :=
  match nodes t !! nid with
  | Some _ => true
  | None => false
  end.

(** [tree.create_node(tag, nid, parent=parent)]: a node identifier is used
    once, there is one root, and a parent is a node of the tree. *)
Definition create_node (tg nid : string) (parent : option string) (t : Tree)
    : outcome Tree :=
  if contains t nid then Raise (DuplicatedNodeIdError nid)
  else
    match parent with
    | None =>
        match root t with
        | Some _ => Raise MultipleRootError
        | None =>
            Return {| nodes := <[nid := {| tag := tg; predecessor := None |}]> (nodes t);
                      root := Some nid |}
        end
    | Some pid =>
        if contains t pid
        then Return {| nodes := <[nid := {| tag := tg; predecessor := Some pid |}]> (nodes t);
                       root := root t |}
        else Raise (NodeIDAbsentError pid)
    end.

End treelib.

(** ** Python strings *)

Module py.

Definition byte (c : ascii) : N := N_of_ascii c.

Definition between (lo hi : N) (c : ascii) : bool :=
  ((lo <=? byte c) && (byte c <=? hi))%N.

(** The bytes 80..BF, which continue a character. *)
Definition continuation (c : ascii) : bool := between 128 191 c.

(** The second byte that the lead byte [c0] of a three-byte character
    admits. *)
Definition second_of_three (c0 c1 : ascii) : bool :=
  if (byte c0 =? 224)%N then between 160 191 c1
  else if (byte c0 =? 237)%N then between 128 159 c1
  else continuation c1.

(** The second byte that the lead byte [c0] of a four-byte character
    admits. *)
Definition second_of_four (c0 c1 : ascii) : bool :=
  if (byte c0 =? 240)%N then between 144 191 c1
  else if (byte c0 =? 244)%N then between 128 143 c1
  else continuation c1.

(** [len(s)]: the number of characters; a byte that does not begin a
    well-formed character is one character. *)
Fixpoint len (s : string) : nat :=
  match s with
  | EmptyString => O
  | String c0 s1 =>
      if (byte c0 <? 128)%N then S (len s1)
      else if between 194 223 c0 then
        match s1 with
        | String c1 s2 => if continuation c1 then S (len s2) else S (len s1)
        | EmptyString => S (len s1)
        end
      else if between 224 239 c0 then
        match s1 with
        | String c1 (String c2 s3) =>
            if second_of_three c0 c1 && continuation c2
            then S (len s3) else S (len s1)
        | _ => S (len s1)
        end
      else if between 240 244 c0 then
        match s1 with
        | String c1 (String c2 (String c3 s4)) =>
            if second_of_four c0 c1 && continuation c2 && continuation c3
            then S (len s4) else S (len s1)
        | _ => S (len s1)
        end
      else S (len s1)
  end.


(** Every character is below U+0100, so that the string encodes to
    Latin-1: a byte below 128, or C2 or C3 and a continuation byte. *)
Fixpoint is_latin1 (s : string) : bool :=
  match s with
  | EmptyString => true
  | String c0 s1 =>
      if (byte c0 <? 128)%N then is_latin1 s1
      else if between 194 195 c0 then
        match s1 with
        | String c1 s2 => continuation c1 && is_latin1 s2
        | EmptyString => false
        end
      else false
  end.

Fixpoint contains (c : ascii) (s : string) : bool :=
  match s with
  | EmptyString => false
  | String c' s' => Ascii.eqb c c' || contains c s'
  end.

Definition hex_digit (n : N) : ascii :=
  ascii_of_N (if (n <? 10)%N then 48 + n else 87 + n).

(** One character of [repr(s)], between quotes [quote]: the quote and the
    backslash take a backslash, a control character is escaped, and a byte
    from 128 on is kept, as the bytes of a printable character are. *)
Definition repr_char (quote c : ascii) : string :=
  let escaped (rest : string) := String "092"%char rest in
  if Ascii.eqb c quote || Ascii.eqb c "092"%char
    then escaped (String c EmptyString)
  else if Ascii.eqb c "009"%char then escaped (String "t"%char EmptyString)
  else if Ascii.eqb c "010"%char then escaped (String "n"%char EmptyString)
  else if Ascii.eqb c "013"%char then escaped (String "r"%char EmptyString)
  else if ((byte c <? 32) || (byte c =? 127))%N
    then escaped (String "x"%char
                    (String (hex_digit (byte c / 16))
                       (String (hex_digit (byte c mod 16)) EmptyString)))
  else String c EmptyString.

Fixpoint repr_body (quote : ascii) (s : string) : string :=
  match s with
  | EmptyString => String quote EmptyString
  | String c s' => repr_char quote c +:+ repr_body quote s'
  end.

(** [repr(s)]: between single quotes, or between double quotes when [s]
    holds a single quote and no double quote. *)
Definition repr (s : string) : string :=
  let quote :=
    if contains "'"%char s && negb (contains "034"%char s)
    then "034"%char else "'"%char in
  String quote (repr_body quote s).

End py.

(** ** The file system and the [os] functions *)

(** An entry that is not a directory, of [st_size] bytes as [os.stat] gives
    them: a regular file, and as well a FIFO, a socket, a device or a link
    to one of these, which the script does not tell apart; or a directory
    and its entries.  A link to a directory, which the walk lists among the
    directories and does not enter, is as a directory with no entry. *)
Inductive node :=
| File (st_size : N)
| Dir (st_size : N) (entries : list (string * node)).

Module os.

Definition startswith_sep (s : string) : bool :=
  match s with
  | String "/"%char _ => true
  | _ => false
  end.

Fixpoint endswith_sep (s : string) : bool :=
  match s with
  | EmptyString => false
  | String "/"%char EmptyString => true
  | String _ s' => endswith_sep s'
  end.

(** [os.path.join(a, b)] *)
Definition path_join (a b : string) : string :=
  if startswith_sep b then b
  else if (String.eqb a "" || endswith_sep a)%bool then a +:+ b
  else a +:+ "/" +:+ b.

Definition is_dir (n : node) : bool :=
  match n with
  | Dir _ _ => true
  | File _ => false
  end.

Definition dirnames (es : list (string * node)) : list string :=
  (filter (λ e, is_dir e.2 = true) es).*1.

Definition filenames (es : list (string * node)) : list string :=
  (filter (λ e, is_dir e.2 = false) es).*1.

(** The triples [os.walk] yields from [top], top-down: the directory
    itself, then the walk of each of its entries that is a directory; a
    [top] that is not a directory yields nothing. *)
Fixpoint walk_node (top : string) (n : node)
    : list (string * list string * list string) :=
  match n with
  | File _ => []
  | Dir _ es =>
      (top, dirnames es, filenames es) ::
      flat_map (λ e, if is_dir e.2 then walk_node (path_join top e.1) e.2 else []) es
  end.

Section world.
Context (fs : string → option node).

(** [os.path.exists(path)] *)
Definition path_exists (path : string) : bool :=
  match fs path with
  | Some _ => true
  | None => false
  end.

(** [os.walk(top)], as the list of what it yields. *)
Definition walk (top : string) : list (string * list string * list string) :=
  match fs top with
  | Some n => walk_node top n
  | None => []
  end.

(** [os.path.getsize(path)]; the error for a path that does not resolve
    ends with the [repr] of the path. *)
Definition path_getsize (path : string) : outcome N :=
  match fs path with
  | Some (File sz) => Return sz
  | Some (Dir sz _) => Return sz
  | None =>
      Raise (FileNotFoundError
               ("[Errno 2] No such file or directory: " +:+ py.repr path))
  end.

End world.

End os.


(** ** The script *)

Section script.
Context (fs : string → option node).
Context (guess_type : string → option string).

Definition not_found_msg : string :=
  "The specified file path does not exist. Please provide a valid directory.".

(** [str(file_type) if file_type else "Unknown"] *)
Definition type_label (file_type : option string) : string :=
  match file_type with
  | Some "" => "Unknown"
  | Some t => t
  | None => "Unknown"
  end.

(** The body of the inner loop of [get_file_info], for one [file] of
    [root]. *)
Definition visit_file (directory root file : string)
    (st : list file_record * treelib.Tree) : M (list file_record * treelib.Tree) :=
  let '(file_data, file_structure) := st in
  let file_path := os.path_join root file in
  let! file_size := perform (os_path_getsize file_path) (os.path_getsize fs file_path) in
  let! file_type := perform (mimetypes_guess_type file_path) (Return (guess_type file_path)) in
  let file_data :=
    file_data ++ [ {| Folder := root;
                      File_Name := file;
                      File_Size_KB := size_kb file_size;
                      File_Type := type_label file_type |} ] in
  let! known := perform (tree_contains root) (Return (treelib.contains file_structure root)) in
  let! file_structure :=
    (if negb known
     then perform (tree_create_node root root (Some directory))
            (treelib.create_node root root (Some directory) file_structure)
     else ret file_structure) in
  let! file_structure :=
    perform (tree_create_node file file_path (Some root))
      (treelib.create_node file file_path (Some root) file_structure) in
  ret (file_data, file_structure).

(** [get_file_info(directory)] *)
Definition get_file_info (directory : string)
    : M (list file_record * treelib.Tree) :=
  let! found := perform (os_path_exists directory) (Return (os.path_exists fs directory)) in
  if negb found then raise (FileNotFoundError not_found_msg)
  else
    let file_data := [] in
    let! file_structure := perform treelib_Tree (Return treelib.new) in
    let! file_structure :=
      perform (tree_create_node directory directory None)
        (treelib.create_node directory directory None file_structure) in
    let! triples := perform (os_walk directory) (Return (os.walk fs directory)) in
    for_each triples
      (λ '(root, _, files) st, for_each files (visit_file directory root) st)
      (file_data, file_structure).

(** [save_pdf_report(df, output_filename)], on rows whose texts the PDF
    writer can encode ([latin1_row]); on other text the writer raises, which
    is not modelled. *)
Definition save_pdf_report (df : list file_record) (output_filename : string)
    : M unit :=
  do! perform (fpdf "FPDF") (Return ()) in
  do! perform (fpdf "set_auto_page_break") (Return ()) in
  do! perform (fpdf "add_page") (Return ()) in
  do! perform (fpdf "set_font") (Return ()) in
  do! perform (pdf_cell "File Analysis Report") (Return ()) in
  do! perform (fpdf "ln") (Return ()) in
  do! for_each df
        (λ row _,
           do! perform (pdf_cell_field "Folder" row) (Return ()) in
           do! perform (pdf_cell_field "File Name" row) (Return ()) in
           do! perform (pdf_cell_field "File Size (KB)" row) (Return ()) in
           do! perform (pdf_cell_field "File Type" row) (Return ()) in
           perform (fpdf "ln") (Return ()))
        () in
  do! perform (pdf_output output_filename) (Return ()) in
  perform (print ("PDF report saved as " +:+ output_filename)) (Return ()).

(** The five series [display_results] computes, in the order of its
    charts. *)
Record views := {
  file_size_by_type : gmap string spec_float;
  folder_count : gmap string nat;
  file_type_count : gmap string nat;
  folder_size : gmap string spec_float;
  type_size_dist : gmap string spec_float
}.

Definition aggregate (df : list file_record) : views :=
  {| file_size_by_type := pd.groupby_sum File_Type File_Size_KB df;
     folder_count := pd.value_counts Folder df;
     file_type_count := pd.value_counts File_Type df;
     folder_size := pd.groupby_sum Folder File_Size_KB df;
     type_size_dist := pd.groupby_sum File_Type File_Size_KB df |}.

Definition no_files_msg : string := "No files found in the specified directory.".

(** [display_results(file_data, file_structure)], on rows whose texts the
    PDF writer can encode, and with a display to open the window on. *)
Definition display_results (file_data : list file_record)
    (file_structure : treelib.Tree) : M unit :=
  let df := pd.DataFrame file_data in
  if pd.empty df then perform (print no_files_msg) (Return ())
  else
    do! perform (qt "QApplication") (Return ()) in
    do! perform (qt "QScrollArea") (Return ()) in
    do! perform (qt "QWidget") (Return ()) in
    do! perform (qt "QVBoxLayout") (Return ()) in
    do! perform (qt "setLayout") (Return ()) in
    do! perform (qt "setWidget") (Return ()) in
    do! perform (qt "setWidgetResizable") (Return ()) in
    do! perform (qt "setWindowTitle") (Return ()) in
    do! perform (qt "resize") (Return ()) in
    do! perform (qt "GraphicsLayoutWidget") (Return ()) in
    do! perform (qt "addWidget") (Return ()) in
    do! perform addPlot (Return ()) in
    let file_size_by_type := pd.groupby_sum File_Type File_Size_KB df in
    do! perform (create_bar_chart "File Size Distribution By Type" (Sizes file_size_by_type)) (Return ()) in
    do! perform nextRow (Return ()) in
    do! perform addPlot (Return ()) in
    let folder_count := pd.value_counts Folder df in
    do! perform (create_bar_chart "File Count Per Folder" (Counts folder_count)) (Return ()) in
    do! perform nextRow (Return ()) in
    do! perform addPlot (Return ()) in
    let file_type_count := pd.value_counts File_Type df in
    do! perform (create_bar_chart "File Type Count" (Counts file_type_count)) (Return ()) in
    do! perform nextRow (Return ()) in
    do! perform addPlot (Return ()) in
    let folder_size := pd.groupby_sum Folder File_Size_KB df in
    do! perform (create_bar_chart "Folder-Wise File Size" (Sizes folder_size)) (Return ()) in
    do! perform nextRow (Return ()) in
    do! perform addPlot (Return ()) in
    let type_size_dist := pd.groupby_sum File_Type File_Size_KB df in
    do! perform (create_bar_chart "File Type-Wise Size Distribution" (Sizes type_size_dist)) (Return ()) in
    do! perform (qt "show") (Return ()) in
    do! save_pdf_report df "file_analysis_report.pdf" in
    perform (qt "exec") (Return ()).

(** [str(e)] *)
Definition str_exn (e : exn) : string :=
  match e with
  | FileNotFoundError msg => msg
  | DuplicatedNodeIdError nid => "Can't create node with ID '" +:+ nid +:+ "'"
  | NodeIDAbsentError nid => "Parent node '" +:+ nid +:+ "' is not in the tree"
  | MultipleRootError => "A tree takes one root merely."
  end.

(** [main()], [directory] being the line read from the prompt. *)
Definition main (directory : string) : M unit :=
  do! perform (input "Enter the directory path: ") (Return ()) in
  try_except
    (let! (file_data, file_structure) := get_file_info directory in
     display_results file_data file_structure)
    (λ e,
       match e with
       | FileNotFoundError _ => perform (print ("Error: " +:+ str_exn e)) (Return ())
       | _ => perform (print ("An unexpected error occurred: " +:+ str_exn e)) (Return ())
       end).

End script.


(** ** What lies under a directory *)

(** Every node at or below [top], with its path. *)
Fixpoint paths_under (top : string) (n : node) : list (string * node) :=
  (top, n) ::
  match n with
  | File _ => []
  | Dir _ es => flat_map (λ e, paths_under (os.path_join top e.1) e.2) es
  end.

(** The entries below [top] that are not directories, entry by entry:
    folder, name, bytes. *)
Fixpoint files_under (top : string) (n : node) : list (string * string * N) :=
  match n with
  | File _ => []
  | Dir _ es =>
      flat_map (λ e, match e.2 with
                     | File sz => [(top, e.1, sz)]
                     | Dir _ _ => files_under (os.path_join top e.1) e.2
                     end) es
  end.

(** The files of one directory listing. *)
Definition files_here (top : string) (es : list (string * node))
    : list (string * string * N) :=
  flat_map (λ e, match e.2 with
                 | File sz => [(top, e.1, sz)]
                 | Dir _ _ => []
                 end) es.

(** The same files in the order the walk meets them: the files of a
    directory before those of its subdirectories. *)
Fixpoint walk_files (top : string) (n : node) : list (string * string * N) :=
  match n with
  | File _ => []
  | Dir _ es =>
      files_here top es ++
      flat_map (λ e, if os.is_dir e.2 then walk_files (os.path_join top e.1) e.2 else []) es
  end.

(** The path of a file of a folder. *)
Definition path_of (f : string * string * N) : string :=
  os.path_join f.1.1 f.1.2.

(** [fs] shows the tree [n] at [top]: every path below resolves to its
    node, and no two nodes share a path. *)
Definition shows (fs : string → option node) (top : string) (n : node) : Prop :=
  Forall (λ pn, fs pn.1 = Some pn.2) (paths_under top n) ∧
  NoDup (paths_under top n).*1.

(** The loop body of the scan on a file given with its folder and size. *)
Definition visit (fs : string → option node)
    (guess_type : string → option string) (directory : string)
    (f : string * string * N) (st : list file_record * treelib.Tree)
    : M (list file_record * treelib.Tree) :=
  visit_file fs guess_type directory f.1.1 f.1.2 st.

(** The record the scan makes of a file. *)
Definition record_of (guess_type : string → option string)
    (f : string * string * N) : file_record :=
  {| Folder := f.1.1;
     File_Name := f.1.2;
     File_Size_KB := size_kb f.2;
     File_Type := type_label (guess_type (path_of f)) |}.

Definition total_kb (file_data : list file_record) : Z :=
  pd.column_sum Z.add 0 File_Size_KB file_data.


(** The tree holding the root node alone. *)
Definition root_only (directory : string) : treelib.Tree :=
  {| treelib.nodes :=
       {[ directory := {| treelib.tag := directory; treelib.predecessor := None |} ]};
     treelib.root := Some directory |}.

(** The rows of one group. *)
Definition rows_of (key : file_record → string) (k : string)
    (df : list file_record) : list file_record :=
  filter (λ r, key r = k) df.

(** What [save_pdf_report] writes for one row. *)
Definition pdf_block (row : file_record) : list call :=
  [pdf_cell_field "Folder" row; pdf_cell_field "File Name" row;
   pdf_cell_field "File Size (KB)" row; pdf_cell_field "File Type" row;
   fpdf "ln"].

(** The texts of a row that go to the PDF encode to Latin-1, the encoding
    of the PDF writer; the size is written in ASCII. *)
Definition latin1_row (row : file_record) : bool :=
  py.is_latin1 (Folder row) && py.is_latin1 (File_Name row) &&
  py.is_latin1 (File_Type row).

(** ** Reading a log *)

Definition charts (log : list call) : list (string * series) :=
  omap (λ c, match c with
             | create_bar_chart title data => Some (title, data)
             | _ => None
             end) log.

Definition opens_window (c : call) : bool :=
  match c with
  | qt _ | addPlot | nextRow => true
  | _ => false
  end.

Definition renders_chart (c : call) : bool :=
  match c with
  | create_bar_chart _ _ => true
  | _ => false
  end.

Definition writes_pdf (c : call) : bool :=
  match c with
  | fpdf _ | pdf_cell _ | pdf_cell_field _ _ | pdf_output _ => true
  | _ => false
  end.

(** The calls of a scan past its existence test. *)
Definition scans (c : call) : bool :=
  match c with
  | os_walk _ | os_path_getsize _ | mimetypes_guess_type _
  | treelib_Tree | tree_contains _ | tree_create_node _ _ _ => true
  | _ => false
  end.

(** ** A small world for examples *)

(** A folder with a 2048-byte text file, a 512-byte file of no known
    type, and a subfolder holding a 128-byte file. *)
Definition sample_dir : node :=
  Dir 4096 [("a.txt", File 2048);
            ("sub", Dir 4096 [("c", File 128)]);
            ("b", File 512)].

Definition sample_fs (path : string) : option node :=
  if String.eqb path "d" then Some sample_dir
  else if String.eqb path "d/a.txt" then Some (File 2048)
  else if String.eqb path "d/sub" then Some (Dir 4096 [("c", File 128)])
  else if String.eqb path "d/sub/c" then Some (File 128)
  else if String.eqb path "d/b" then Some (File 512)
  else if String.eqb path "e" then Some (Dir 4096 [("empty", Dir 4096 [])])
  else if String.eqb path "e/empty" then Some (Dir 4096 [])
  else None.

Definition sample_guess_type (path : string) : option string :=
  if String.eqb path "d/a.txt" then Some "text/plain" else None.

(** A folder with one 2048-byte text file and one 512-byte file of no
    known type. *)
Definition scenario_dir : node :=
  Dir 4096 [("notes.txt", File 2048); ("blob", File 512)].

Definition scenario_fs (path : string) : option node :=
  if String.eqb path "s" then Some scenario_dir
  else if String.eqb path "s/notes.txt" then Some (File 2048)
  else if String.eqb path "s/blob" then Some (File 512)
  else None.

Definition scenario_guess_type (path : string) : option string :=
  if String.eqb path "s/notes.txt" then Some "text/plain" else None.

Definition sample_rows : list file_record :=
  [ {| Folder := "d"; File_Name := "a.txt"; File_Size_KB := 200; File_Type := "text/plain" |};
    {| Folder := "d"; File_Name := "b"; File_Size_KB := 50; File_Type := "Unknown" |};
    {| Folder := "d/sub"; File_Name := "c"; File_Size_KB := 12; File_Type := "Unknown" |} ].

(** The same rows, the first two exchanged: each type keeps the order of
    its rows. *)
Definition sample_rows' : list file_record :=
  [ {| Folder := "d"; File_Name := "b"; File_Size_KB := 50; File_Type := "Unknown" |};
    {| Folder := "d"; File_Name := "a.txt"; File_Size_KB := 200; File_Type := "text/plain" |};
    {| Folder := "d/sub"; File_Name := "c"; File_Size_KB := 12; File_Type := "Unknown" |} ].


(** ** The labels of a chart *)

(** The separator is one byte and no part of another character, so that
    an index and a slice may count bytes where Python counts characters. *)

Module posixpath.

(** [p.rfind('/')], scanning from index [i] with [last] the latest hit. *)
Fixpoint rfind_sep_from (i last : Z) (p : string) : Z :=
  match p with
  | EmptyString => last
  | String c p' => rfind_sep_from (i + 1) (if Ascii.eqb c "/" then i else last) p'
  end.

Definition rfind_sep (p : string) : Z := rfind_sep_from 0 (-1) p.

(** [p[n:]] *)
Fixpoint drop (n : nat) (p : string) : string :=
  match n, p with
  | O, _ => p
  | S _, EmptyString => EmptyString
  | S n', String _ p' => drop n' p'
  end.

(** [os.path.basename(p)] *)
Definition basename (p : string) : string :=
  let i := rfind_sep p + 1 in
  drop (Z.to_nat i) p.

End posixpath.

(** The separator occurs in a string. *)
Fixpoint has_sep (s : string) : bool :=
  match s with
  | EmptyString => false
  | String c s' => Ascii.eqb c "/" || has_sep s'
  end.

(** Inside [create_bar_chart]: [list(range(len(x_data)))]. *)
Definition x_ticks (x_data : list string) : list nat :=
  seq 0 (length x_data).

(** [os.path.basename(x) if len(x) > 15 else x]; the length is counted in
    characters, the base name is cut at the byte of the separator, which is
    no part of another character. *)
Definition shortened_label (x : string) : string :=
  if (15 <? py.len x)%nat then posixpath.basename x else x.



Definition shortened_labels (x_data : list string) : list string :=
  shortened_label <$> x_data.

(** [list(enumerate(shortened_labels))], the ticks of the bottom axis. *)
Definition axis_ticks (x_data : list string) : list (nat * string) :=
  imap (λ i label, (i, label)) (shortened_labels x_data).

(** ** What a visit does to the tree and to the log *)

Definition folder_node (directory folder : string) : treelib.Node :=
  {| treelib.tag := folder; treelib.predecessor := Some directory |}.

Definition file_node (f : string * string * N) : treelib.Node :=
  {| treelib.tag := f.1.2; treelib.predecessor := Some f.1.1 |}.

(** The tree after the visit of [f]: the node of its folder, unless there,
    then the node of the file. *)
Definition grow (directory : string) (t : treelib.Tree)
    (f : string * string * N) : treelib.Tree :=
  let nodes1 :=
    if treelib.contains t f.1.1 then treelib.nodes t
    else <[f.1.1 := folder_node directory f.1.1]> (treelib.nodes t) in
  {| treelib.nodes := <[path_of f := file_node f]> nodes1;
     treelib.root := treelib.root t |}.

(** The calls of the visit of [f]. *)
Definition visit_calls (directory : string) (t : treelib.Tree)
    (f : string * string * N) : list call :=
  [os_path_getsize (path_of f); mimetypes_guess_type (path_of f);
   tree_contains f.1.1] ++
  (if treelib.contains t f.1.1 then []
   else [tree_create_node f.1.1 f.1.1 (Some directory)]) ++
  [tree_create_node f.1.2 (path_of f) (Some f.1.1)].

(** The calls of the visits of a list of files, from the tree [t]. *)
Fixpoint scan_calls (directory : string) (t : treelib.Tree)
    (files : list (string * string * N)) : list call :=
  match files with
  | [] => []
  | f :: files' =>
      visit_calls directory t f ++ scan_calls directory (grow directory t f) files'
  end.

(** The paths a log asks the size of, in order. *)
Definition sized (log : list call) : list string :=
  omap (λ c, match c with os_path_getsize p => Some p | _ => None end) log.

(** The paths a log asks the type of, in order. *)
Definition guessed (log : list call) : list string :=
  omap (λ c, match c with mimetypes_guess_type p => Some p | _ => None end) log.


(** The PDF files a log writes, in order. *)
Definition pdf_outputs (log : list call) : list string :=
  omap (λ c, match c with pdf_output filename => Some filename | _ => None end) log.

(** The files of one folder. *)
Definition files_in (folder : string) (files : list (string * string * N))
    : list (string * string * N) :=
  filter (λ f, f.1.1 = folder) files.

(** What [main] prints for an exception. *)
Definition error_line (e : exn) : string :=
  match e with
  | FileNotFoundError _ => "Error: " +:+ str_exn e
  | _ => "An unexpected error occurred: " +:+ str_exn e
  end.

(** A file that is listed and gone before its size is asked: [fs] lists
    [late.txt] in [r] and does not resolve its path. *)
Definition racy_dir : node :=
  Dir 4096 [("early.txt", File 1024); ("late.txt", File 300)].

Definition racy_fs (path : string) : option node :=
  if String.eqb path "r" then Some racy_dir
  else if String.eqb path "r/early.txt" then Some (File 1024)
  else None.

(** Three records of 0.01, 0.01 and 0.04 KB in one folder, the last two
    of one type. *)
Definition cent_rows : list file_record :=
  [ {| Folder := "d"; File_Name := "a.txt"; File_Size_KB := 1; File_Type := "text/plain" |};
    {| Folder := "d"; File_Name := "b"; File_Size_KB := 1; File_Type := "Unknown" |};
    {| Folder := "d"; File_Name := "c"; File_Size_KB := 4; File_Type := "Unknown" |} ].

(** The same records, the first one last. *)
Definition cent_rows' : list file_record :=
  [ {| Folder := "d"; File_Name := "b"; File_Size_KB := 1; File_Type := "Unknown" |};
    {| Folder := "d"; File_Name := "c"; File_Size_KB := 4; File_Type := "Unknown" |};
    {| Folder := "d"; File_Name := "a.txt"; File_Size_KB := 1; File_Type := "text/plain" |} ].



(** * Properties *)

(** ** Grouping *)

Section grouping_facts.
Context {V : Type} (add : V → V → V) (zero : V).
Hypothesis add_comm : ∀ x y, add x y = add y x.
Hypothesis add_assoc : ∀ x y z, add x (add y z) = add (add x y) z.
Hypothesis add_zero : ∀ x, add zero x = x.
Context (key : file_record → string) (col : file_record → V).

Local Abbreviation accumulate := (pd.accumulate add zero key col).
Local Abbreviation grouped := (pd.grouped add zero key col).
Local Abbreviation series_sum := (pd.series_sum add zero).
Local Abbreviation column_sum := (pd.column_sum add zero col).

Lemma add_swap x y z : add x (add y z) = add y (add x z).
Proof. by rewrite !add_assoc, (add_comm x y). Qed.

Lemma accumulate_lookup acc row k :
  accumulate acc row !! k =
    if decide (key row = k) then Some (add (default zero (acc !! k)) (col row))
    else acc !! k.
Proof.
  unfold pd.accumulate. rewrite lookup_partial_alter.
  case_decide; by subst.
Qed.

(** Two rows enter their groups in either order. *)
Lemma accumulate_comm acc r1 r2 :
  accumulate (accumulate acc r1) r2 = accumulate (accumulate acc r2) r1.
Proof.
  apply map_eq. intros k. rewrite !accumulate_lookup.
  repeat case_decide; simpl; try done.
  f_equal. rewrite <- !add_assoc. f_equal. apply add_comm.
Qed.

Lemma foldl_accumulate_perm rows rows' :
  rows ≡ₚ rows' → ∀ acc, foldl accumulate acc rows = foldl accumulate acc rows'.
Proof.
  induction 1 as [|r l l' _ IH|r1 r2 l|l l' l'' _ IH1 _ IH2]; intros acc; simpl.
  - done.
  - apply IH.
  - by rewrite accumulate_comm.
  - by rewrite IH1.
Qed.

(** The series does not depend on the order of the rows. *)
Lemma grouped_perm rows rows' : rows ≡ₚ rows' → grouped rows = grouped rows'.
Proof. intros Hp. by apply foldl_accumulate_perm. Qed.

Lemma series_sum_insert (s : gmap string V) k v :
  s !! k = None → series_sum (<[k := v]> s) = add v (series_sum s).
Proof.
  intros Hk. unfold pd.series_sum.
  rewrite map_fold_insert_L; [done | | done].
  intros. apply add_swap.
Qed.

Lemma series_sum_accumulate acc row :
  series_sum (accumulate acc row) = add (series_sum acc) (col row).
Proof.
  unfold pd.accumulate. destruct (acc !! key row) as [v|] eqn:Hk.
  - rewrite <- (insert_delete_id acc (key row) v Hk) at 1.
    rewrite partial_alter_insert_eq.
    replace (partial_alter _ (key row) (delete (key row) acc))
      with (<[key row := add v (col row)]> (delete (key row) acc)).
    2:{ apply map_eq. intros j. rewrite lookup_partial_alter, lookup_insert.
        case_decide; [by simpl | done]. }
    rewrite series_sum_insert by apply lookup_delete_eq.
    rewrite <- (insert_delete_id acc (key row) v Hk) at 2.
    rewrite series_sum_insert by apply lookup_delete_eq.
    rewrite <- !add_assoc. rewrite (add_comm (col row)). by rewrite add_swap.
  - replace (partial_alter _ (key row) acc)
      with (<[key row := add zero (col row)]> acc).
    2:{ apply map_eq. intros j. rewrite lookup_partial_alter, lookup_insert.
        case_decide; [by rewrite Hk | done]. }
    rewrite series_sum_insert by done. rewrite add_zero. apply add_comm.
Qed.

Lemma series_sum_foldl rows : ∀ acc,
  series_sum (foldl accumulate acc rows) = add (series_sum acc) (column_sum rows).
Proof.
  induction rows as [|r rows IH]; intros acc; simpl.
  - by rewrite add_comm, add_zero.
  - by rewrite IH, series_sum_accumulate, add_assoc.
Qed.

(** The values of a series add up to the column over all rows. *)
Lemma series_sum_grouped rows : series_sum (grouped rows) = column_sum rows.
Proof.
  unfold pd.grouped. rewrite series_sum_foldl.
  unfold pd.series_sum at 1. by rewrite map_fold_empty, add_zero.
Qed.

(** The value of a key is the column over the rows of that key, and a key
    is in the series exactly when some row has it. *)
Lemma grouped_lookup rows k :
  grouped rows !! k =
    match filter (λ r, key r = k) rows with
    | [] => None
    | g => Some (column_sum g)
    end.
Proof.
  assert (∀ rows acc, foldl accumulate acc rows !! k =
    match filter (λ r, key r = k) rows with
    | [] => acc !! k
    | g => Some (add (default zero (acc !! k)) (column_sum g))
    end) as Hgen.
  { clear rows. induction rows as [|r rows IH]; intros acc; simpl; [done|].
    rewrite IH, accumulate_lookup. rewrite filter_cons.
    case_decide as Hr; [|done].
    destruct (filter _ rows) as [|r' g]; simpl.
    - by rewrite (add_comm (col r) zero), add_zero.
    - by rewrite <- add_assoc. }
  unfold pd.grouped. rewrite Hgen, lookup_empty. simpl.
  destruct (filter _ rows); [done|]. by rewrite add_zero.
Qed.

End grouping_facts.

Lemma count_rows (rows : list file_record) :
  pd.column_sum Nat.add 0%nat (λ _, 1%nat) rows = length rows.
Proof. induction rows as [|r rows IH]; simpl; [done | by rewrite IH]. Qed.

(** The state of a key is the fold of [step] over the rows of that key, in
    their order, and a key is in the series exactly when some row has
    it. *)
Lemma grouped_fold_lookup {S V} (step : S → V → S) (init : S)
    (key : file_record → string) (col : file_record → V) rows k :
  pd.grouped step init key col rows !! k =
    match filter (λ r, key r = k) rows with
    | [] => None
    | g => Some (foldl step init (col <$> g))
    end.
Proof.
  assert (∀ rows acc, foldl (pd.accumulate step init key col) acc rows !! k =
    match filter (λ r, key r = k) rows with
    | [] => acc !! k
    | g => Some (foldl step (default init (acc !! k)) (col <$> g))
    end) as Hgen.
  { clear rows. induction rows as [|r rows IH]; intros acc; [done|].
    cbn [foldl]. rewrite IH. rewrite filter_cons.
    assert (pd.accumulate step init key col acc r !! k =
            if decide (key r = k)
            then Some (step (default init (acc !! k)) (col r))
            else acc !! k) as ->.
    { unfold pd.accumulate. rewrite lookup_partial_alter.
      case_decide; by subst. }
    case_decide as Hr; [|done].
    by destruct (filter _ rows) as [|r' g]. }
  unfold pd.grouped. rewrite Hgen, lookup_empty.
  by destruct (filter _ rows).
Qed.

Lemma groupby_sum_lookup key col df k :
  pd.groupby_sum key col df !! k =
    match rows_of key k df with
    | [] => None
    | g => Some (pd.kahan_sum ((λ row, f64.of_hundredths (col row)) <$> g))
    end.
Proof.
  unfold pd.groupby_sum, rows_of. rewrite lookup_fmap, grouped_fold_lookup.
  by destruct (filter _ df).
Qed.

Lemma groupby_sum_plain_lookup key col df k :
  pd.groupby_sum_plain key col df !! k =
    match rows_of key k df with
    | [] => None
    | g => Some (f64.sum ((λ row, f64.of_hundredths (col row)) <$> g))
    end.
Proof. unfold pd.groupby_sum_plain, rows_of. apply grouped_fold_lookup. Qed.

Lemma groupby_sum_exact_lookup key col df k :
  pd.groupby_sum_exact key col df !! k =
    match rows_of key k df with
    | [] => None
    | g => Some (pd.column_sum Z.add 0 col g)
    end.
Proof.
  unfold pd.groupby_sum_exact, rows_of. apply grouped_lookup; intros; lia.
Qed.

Lemma value_counts_lookup key df k :
  pd.value_counts key df !! k =
    match rows_of key k df with
    | [] => None
    | g => Some (length g)
    end.
Proof.
  unfold pd.value_counts, rows_of.
  rewrite grouped_lookup by (intros; lia).
  destruct (filter _ df) as [|r g]; [done|]. by rewrite count_rows.
Qed.

Lemma groupby_sum_exact_total key col df :
  pd.series_sum Z.add 0 (pd.groupby_sum_exact key col df)
    = pd.column_sum Z.add 0 col df.
Proof. apply series_sum_grouped; intros; lia. Qed.

Lemma value_counts_total key df :
  pd.series_sum Nat.add 0%nat (pd.value_counts key df) = length df.
Proof.
  unfold pd.value_counts. rewrite series_sum_grouped by (intros; lia).
  apply count_rows.
Qed.

(** The rows of a key, after a permutation of the rows. *)
Lemma rows_of_perm key k df df' :
  df ≡ₚ df' → rows_of key k df ≡ₚ rows_of key k df'.
Proof. intros Hp. unfold rows_of. by rewrite Hp. Qed.

Lemma rows_of_nil_perm key k df df' :
  df ≡ₚ df' → rows_of key k df = [] ↔ rows_of key k df' = [].
Proof.
  intros Hp. pose proof (rows_of_perm key k df df' Hp) as Hk.
  split; intros E; rewrite E in Hk.
  - by apply Permutation_nil_l in Hk.
  - by apply Permutation_nil_r in Hk.
Qed.

(** A size series has the keys of the rows. *)
Lemma groupby_sum_is_Some key col df k :
  is_Some (pd.groupby_sum key col df !! k) ↔ rows_of key k df ≠ [].
Proof.
  rewrite groupby_sum_lookup. destruct (rows_of key k df); split; try done.
Qed.

(** A size series is the same for two sequences whose groups hold the same
    rows in the same order. *)
Lemma groupby_sum_same_groups key col df df' :
  (∀ k, rows_of key k df = rows_of key k df') →
  pd.groupby_sum key col df = pd.groupby_sum key col df'.
Proof.
  intros Hrows. apply map_eq. intros k.
  by rewrite !groupby_sum_lookup, Hrows.
Qed.

(** The claim C1 fails on three records of 0.01, 0.01 and 0.04 KB, the
    first of a type of its own: the size-by-type series holds 0.01 and
    0.05, which add up to 0.060000000000000005 in either order, plainly or
    with compensation, whereas the sizes of the three records add up to
    0.06; and the two totals differ as well when the doubles are added
    exactly. *)
Lemma aggregate_conserves_totals_counterexample :
  let by_type := (map_to_list (file_size_by_type (aggregate cent_rows))).*2 in
  let sizes := File_Size <$> cent_rows in
  (∀ l, l ≡ₚ by_type → f64.sum l ≠ f64.sum sizes) ∧
  (∀ l, l ≡ₚ by_type → pd.kahan_sum l ≠ pd.kahan_sum sizes) ∧
  ¬ (f64.sum_Q by_type == f64.sum_Q sizes)%Q.
Proof.
  cbv zeta.
  assert ((map_to_list (file_size_by_type (aggregate cent_rows))).*2 =
          [S754_finite false 7205759403792794 (-57);
           S754_finite false 5764607523034235 (-59)]) as ->
    by (vm_compute; reflexivity).
  split; [|split].
  - intros l [-> | ->]%Permutation_sym%Permutation_length_2_inv;
      intros E; vm_compute in E; discriminate E.
  - intros l [-> | ->]%Permutation_sym%Permutation_length_2_inv;
      intros E; vm_compute in E; discriminate E.
  - intros E. vm_compute in E. discriminate E.
Qed.

(** C1 (amended).  The aggregation is a function of the record sequence
    alone.  The values of each count series add up to the number of
    records.  Key by key, a count series holds the number, and a size
    series the float64 sum in the order of the records, of exactly the
    records of that key, so no record is dropped or counted twice; and the
    two-decimal sizes of the groups, added exactly, give by type and by
    folder the total of all records. *)
Theorem aggregate_conserves_totals (df : list file_record) :
  let v := aggregate df in
  (pd.series_sum Nat.add 0%nat (folder_count v) = length df ∧
   pd.series_sum Nat.add 0%nat (file_type_count v) = length df) ∧
  (∀ k,
    file_size_by_type v !! k =
      match rows_of File_Type k df with
      | [] => None
      | g => Some (pd.kahan_sum (File_Size <$> g))
      end ∧
    folder_size v !! k =
      match rows_of Folder k df with
      | [] => None
      | g => Some (pd.kahan_sum (File_Size <$> g))
      end ∧
    type_size_dist v !! k = file_size_by_type v !! k ∧
    folder_count v !! k =
      match rows_of Folder k df with [] => None | g => Some (length g) end ∧
    file_type_count v !! k =
      match rows_of File_Type k df with [] => None | g => Some (length g) end) ∧
  (pd.series_sum Z.add 0 (pd.groupby_sum_exact File_Type File_Size_KB df) = total_kb df ∧
   pd.series_sum Z.add 0 (pd.groupby_sum_exact Folder File_Size_KB df) = total_kb df ∧
   ∀ k,
     pd.groupby_sum_exact File_Type File_Size_KB df !! k =
       match rows_of File_Type k df with [] => None | g => Some (total_kb g) end ∧
     pd.groupby_sum_exact Folder File_Size_KB df !! k =
       match rows_of Folder k df with [] => None | g => Some (total_kb g) end).
Proof.
  cbv zeta. split; [|split].
  - split; apply value_counts_total.
  - intros k. unfold aggregate.
    cbn [file_size_by_type folder_size type_size_dist folder_count file_type_count].
    repeat split;
      first [apply groupby_sum_lookup | apply value_counts_lookup | done].
  - split; [apply groupby_sum_exact_total|].
    split; [apply groupby_sum_exact_total|].
    intros k. split; apply groupby_sum_exact_lookup.
Qed.

(** The claim C7 fails on the same three records: all are in one folder,
    and the size of that folder is 0.06 for the sizes in the order 0.01,
    0.01, 0.04 and 0.060000000000000005 in the order 0.01, 0.04, 0.01,
    with compensation and without. *)
Lemma aggregate_permutation_counterexample :
  cent_rows ≡ₚ cent_rows' ∧
  folder_size (aggregate cent_rows) !! "d"
    ≠ folder_size (aggregate cent_rows') !! "d" ∧
  pd.groupby_sum_plain Folder File_Size_KB cent_rows !! "d"
    ≠ pd.groupby_sum_plain Folder File_Size_KB cent_rows' !! "d".
Proof.
  split; [|split].
  - unfold cent_rows, cent_rows'. apply (Permutation_cons_append [_; _]).
  - intros E. vm_compute in E. discriminate E.
  - intros E. vm_compute in E. discriminate E.
Qed.

(** C7 (amended).  Permuting the record sequence changes neither the count
    series nor the keys of a size series, nor the sums of the two-decimal
    sizes added exactly; and a size series is the same mapping from keys
    to values whenever the permutation keeps, inside every group, the
    order of the records. *)
Theorem aggregate_permutation (df df' : list file_record) :
  df ≡ₚ df' →
  let v := aggregate df in
  let v' := aggregate df' in
  folder_count v = folder_count v' ∧
  file_type_count v = file_type_count v' ∧
  pd.groupby_sum_exact File_Type File_Size_KB df
    = pd.groupby_sum_exact File_Type File_Size_KB df' ∧
  pd.groupby_sum_exact Folder File_Size_KB df
    = pd.groupby_sum_exact Folder File_Size_KB df' ∧
  (∀ k, (is_Some (file_size_by_type v !! k) ↔ is_Some (file_size_by_type v' !! k)) ∧
        (is_Some (folder_size v !! k) ↔ is_Some (folder_size v' !! k)) ∧
        (is_Some (type_size_dist v !! k) ↔ is_Some (type_size_dist v' !! k))) ∧
  ((∀ k, rows_of File_Type k df = rows_of File_Type k df') →
   file_size_by_type v = file_size_by_type v' ∧
   type_size_dist v = type_size_dist v') ∧
  ((∀ k, rows_of Folder k df = rows_of Folder k df') →
   folder_size v = folder_size v').
Proof.
  intros Hp. cbv zeta. unfold aggregate.
  cbn [file_size_by_type folder_size type_size_dist folder_count file_type_count].
  split; [apply grouped_perm; [intros; lia .. | done]|].
  split; [apply grouped_perm; [intros; lia .. | done]|].
  split; [apply grouped_perm; [intros; lia .. | done]|].
  split; [apply grouped_perm; [intros; lia .. | done]|].
  split; [|split].
  - intros k. rewrite !groupby_sum_is_Some.
    pose proof (rows_of_nil_perm File_Type k df df' Hp).
    pose proof (rows_of_nil_perm Folder k df df' Hp).
    tauto.
  - intros Hrows. split; by apply groupby_sum_same_groups.
  - intros Hrows. by apply groupby_sum_same_groups.
Qed.

Lemma aggregate_permutation_witness :
  sample_rows ≡ₚ sample_rows' ∧
  (∀ k, rows_of File_Type k sample_rows = rows_of File_Type k sample_rows') ∧
  folder_count (aggregate sample_rows) = folder_count (aggregate sample_rows') ∧
  file_type_count (aggregate sample_rows) = file_type_count (aggregate sample_rows') ∧
  file_size_by_type (aggregate sample_rows)
    = file_size_by_type (aggregate sample_rows').
Proof.
  assert (sample_rows ≡ₚ sample_rows') as Hp by apply perm_swap.
  assert (∀ k, rows_of File_Type k sample_rows = rows_of File_Type k sample_rows')
    as Hrows.
  { intros k. unfold rows_of, sample_rows, sample_rows'.
    rewrite !filter_cons, !filter_nil. cbn [File_Type].
    repeat case_decide; congruence. }
  split; [exact Hp|]. split; [exact Hrows|].
  destruct (aggregate_permutation _ _ Hp)
    as (Hfolders & Htypes & _ & _ & _ & Hsizes & _).
  split; [exact Hfolders|]. split; [exact Htypes|].
  exact (proj1 (Hsizes Hrows)).
Defined.

(** ** The reporter *)

Lemma for_each_log {X} (xs : list X) (body : X → () → M ())
    (block : X → list call) :
  (∀ x u, body x u = (block x, Return ())) →
  for_each xs body () = (flat_map block xs, Return ()).
Proof.
  intros Hbody. induction xs as [|x xs IH]; simpl; [done|].
  rewrite Hbody. unfold bind. by rewrite IH.
Qed.

Lemma save_pdf_report_log df output_filename :
  save_pdf_report df output_filename =
    ([fpdf "FPDF"; fpdf "set_auto_page_break"; fpdf "add_page"; fpdf "set_font";
      pdf_cell "File Analysis Report"; fpdf "ln"] ++
     flat_map pdf_block df ++
     [pdf_output output_filename;
      print ("PDF report saved as " +:+ output_filename)],
     Return ()).
Proof.
  unfold save_pdf_report.
  rewrite (for_each_log df _ pdf_block) by reflexivity. reflexivity.
Qed.

Lemma charts_pdf_blocks df : charts (flat_map pdf_block df) = [].
Proof. induction df as [|r df IH]; simpl; [done | exact IH]. Qed.

(** The charts of a report on at least one record, in order. *)
Lemma display_results_charts r rs file_structure :
  let v := aggregate (r :: rs) in
  charts (calls (display_results (r :: rs) file_structure)) =
    [("File Size Distribution By Type", Sizes (file_size_by_type v));
     ("File Count Per Folder", Counts (folder_count v));
     ("File Type Count", Counts (file_type_count v));
     ("Folder-Wise File Size", Sizes (folder_size v));
     ("File Type-Wise Size Distribution", Sizes (type_size_dist v))].
Proof.
  unfold display_results. cbn [pd.empty pd.DataFrame].
  rewrite save_pdf_report_log.
  cbn [bind perform calls fst app]. unfold charts.
  cbn [omap list_omap]. rewrite !omap_app.
  fold charts. rewrite charts_pdf_blocks. reflexivity.
Qed.

(** C9.  The series of the fifth chart, sizes summed by type a second
    time, is the series of the first chart, key for key and value for
    value: as a view of the aggregation, and as the data the two charts
    are drawn from. *)
Theorem type_size_dist_is_file_size_by_type (df : list file_record) :
  type_size_dist (aggregate df) = file_size_by_type (aggregate df) ∧
  ∀ file_structure,
    let drawn := charts (calls (display_results df file_structure)) in
    snd <$> drawn !! 4%nat = snd <$> drawn !! 0%nat ∧
    match df with
    | [] => drawn = []
    | _ :: _ =>
        drawn !! 4%nat =
          Some ("File Type-Wise Size Distribution",
                Sizes (pd.groupby_sum File_Type File_Size_KB df))
    end.
Proof.
  split; [reflexivity|].
  intros t. destruct df as [|r rs]; [by split|].
  cbv zeta. rewrite display_results_charts. by split.
Qed.

(** C8.  Handed no record, the reporter prints the notice and returns:
    its only call is that print, so no window is opened, no chart
    rendered and no PDF written. *)
Theorem display_results_no_files (file_structure : treelib.Tree) :
  display_results [] file_structure =
    ([print "No files found in the specified directory."], Return ()) ∧
  Forall (λ c, opens_window c = false ∧ renders_chart c = false ∧
               writes_pdf c = false)
    (calls (display_results [] file_structure)).
Proof.
  split; [reflexivity|]. repeat constructor.
Qed.

(** ** The monad *)

Lemma bind_ret {A B} (a : A) (k : A → M B) : bind (ret a) k = k a.
Proof. unfold bind, ret. by destruct (k a). Qed.

Lemma bind_assoc {A B C} (c : M A) (k : A → M B) (h : B → M C) :
  bind (bind c k) h = bind c (λ a, bind (k a) h).
Proof.
  destruct c as [log [a|e]]; simpl; [|done].
  destruct (k a) as [log' [b|e]]; simpl; [|done].
  destruct (h b) as [log'' r]. by rewrite app_assoc.
Qed.

Lemma bind_ext {A B} (c : M A) (k k' : A → M B) :
  (∀ a, k a = k' a) → bind c k = bind c k'.
Proof. intros Hk. destruct c as [log [a|e]]; simpl; [by rewrite Hk | done]. Qed.

Lemma for_each_app {X S} (xs ys : list X) (body : X → S → M S) (s : S) :
  for_each (xs ++ ys) body s =
    bind (for_each xs body s) (λ s', for_each ys body s').
Proof.
  revert s. induction xs as [|x xs IH]; intros s; cbn [for_each app].
  - by rewrite bind_ret.
  - rewrite bind_assoc. apply bind_ext. intros s'. apply IH.
Qed.

Lemma for_each_fmap {X Y S} (g : X → Y) (xs : list X) (body : Y → S → M S) (s : S) :
  for_each (g <$> xs) body s = for_each xs (λ x, body (g x)) s.
Proof.
  revert s. induction xs as [|x xs IH]; intros s; cbn [for_each fmap list_fmap];
    [done|].
  apply bind_ext. intros s'. apply IH.
Qed.

(** ** The tree library *)

Lemma contains_new nid : treelib.contains treelib.new nid = false.
Proof. unfold treelib.contains, treelib.new. simpl. by rewrite lookup_empty. Qed.

Lemma create_root directory :
  treelib.create_node directory directory None treelib.new
    = Return (root_only directory).
Proof.
  unfold treelib.create_node. rewrite contains_new. simpl.
  unfold root_only. by rewrite insert_empty.
Qed.

Lemma contains_root_only directory nid :
  treelib.contains (root_only directory) nid = true ↔ nid = directory.
Proof.
  unfold treelib.contains, root_only. simpl.
  destruct (decide (nid = directory)) as [->|Hne].
  - by rewrite lookup_singleton_eq.
  - rewrite lookup_singleton_ne by done. split; [discriminate | done].
Qed.

(** A child is added under a node of the tree when its identifier is
    new; the tree then holds it and what it held. *)
Lemma create_child tg nid pid t :
  treelib.contains t nid = false →
  treelib.contains t pid = true →
  ∃ t', treelib.create_node tg nid (Some pid) t = Return t' ∧
        ∀ p, treelib.contains t' p = true ↔ p = nid ∨ treelib.contains t p = true.
Proof.
  intros Hnew Hpid. unfold treelib.create_node. rewrite Hnew, Hpid.
  eexists. split; [reflexivity|].
  intros p. unfold treelib.contains. simpl.
  destruct (decide (p = nid)) as [->|Hne].
  - rewrite lookup_insert_eq. split; auto.
  - rewrite lookup_insert_ne by done. split; [auto | by intros [?|?]].
Qed.

(** ** The scan, file by file *)

Section scan.
Context (fs : string → option node).
Context (guess_type : string → option string).
Context (directory : string).

Local Abbreviation step := (visit fs guess_type directory).

(** One file: its path resolves to it, its identifier is new, and the root
    node is in the tree.  The file gets its record, and the tree grows by
    the folder and the file at most. *)
Lemma visit_ok f file_data t :
  fs (path_of f) = Some (File f.2) →
  treelib.contains t directory = true →
  treelib.contains t (path_of f) = false →
  path_of f ≠ f.1.1 →
  ∃ log t',
    step f (file_data, t) = (log, Return (file_data ++ [record_of guess_type f], t')) ∧
    ∀ p, treelib.contains t' p = true ↔
         p = path_of f ∨ p = f.1.1 ∨ treelib.contains t p = true.
Proof.
  destruct f as [[root file] sz]. unfold path_of, visit, visit_file. simpl.
  intros Hfs Hdir Hnew Hne.
  unfold os.path_getsize. rewrite Hfs.
  destruct (treelib.contains t root) eqn:Hroot; simpl.
  - destruct (create_child file (os.path_join root file) root t Hnew Hroot)
      as (t' & -> & Ht').
    eexists _, t'. split; [reflexivity|].
    intros p. rewrite Ht'. split; [intros [?|?]; auto | intros [?|[->|?]]; auto].
  - destruct (create_child root root directory t Hroot Hdir) as (t1 & -> & Ht1).
    assert (treelib.contains t1 (os.path_join root file) = false) as Hnew1.
    { destruct (treelib.contains t1 _) eqn:E; [|done].
      apply Ht1 in E as [E|E]; [done | congruence]. }
    assert (treelib.contains t1 root = true) as Hroot1 by (apply Ht1; auto).
    destruct (create_child file (os.path_join root file) root t1 Hnew1 Hroot1)
      as (t' & -> & Ht').
    eexists _, t'. split; [reflexivity|].
    intros p. rewrite Ht', Ht1. tauto.
Qed.

(** The files of a list, one after the other. *)
Lemma scan_files_ok (files : list (string * string * N)) : ∀ file_data t,
  Forall (λ f, fs (path_of f) = Some (File f.2)) files →
  NoDup (path_of <$> files) →
  treelib.contains t directory = true →
  (∀ f, f ∈ files → treelib.contains t (path_of f) = false) →
  (∀ f g, f ∈ files → g ∈ files → path_of f ≠ g.1.1) →
  ∃ log t',
    for_each files step (file_data, t)
      = (log, Return (file_data ++ (record_of guess_type <$> files), t')).
Proof.
  induction files as [|f files IH]; intros file_data t Hfs Hnd Hdir Hnew Hroots.
  - exists [], t. simpl. by rewrite app_nil_r.
  - apply Forall_cons in Hfs as [Hf Hfs].
    rewrite fmap_cons in Hnd. apply NoDup_cons in Hnd as [Hf_nd Hnd].
    destruct (visit_ok f file_data t) as (log & t1 & Hvisit & Ht1); auto.
    { apply Hnew. left. }
    { apply Hroots; left. }
    destruct (IH (file_data ++ [record_of guess_type f]) t1) as (log' & t' & Hrest);
      auto.
    { apply Ht1. auto. }
    { intros g Hg. destruct (treelib.contains t1 (path_of g)) eqn:E; [|done].
      apply Ht1 in E as [E|[E|E]].
      - exfalso. apply Hf_nd. rewrite <- E. apply list_elem_of_fmap. eauto.
      - exfalso. eapply (Hroots g f); [by right | left | done].
      - rewrite Hnew in E; [done | by right]. }
    { intros g h Hg Hh. apply Hroots; by right. }
    exists (log ++ log'), t'. cbn [for_each]. rewrite Hvisit. cbn [bind].
    rewrite Hrest. by rewrite fmap_cons, <- app_assoc.
Qed.

End scan.

(** ** Lists of lists *)

Lemma fmap_flat_map {A B C} (f : B → C) (g : A → list B) (l : list A) :
  f <$> flat_map g l = flat_map (λ x, f <$> g x) l.
Proof.
  induction l as [|x l IH]; simpl; [done|]. by rewrite fmap_app, IH.
Qed.

Lemma flat_map_app_perm {A B} (f g : A → list B) (l : list A) :
  flat_map f l ++ flat_map g l ≡ₚ flat_map (λ x, f x ++ g x) l.
Proof.
  induction l as [|x l IH]; simpl; [done|].
  rewrite <- IH, <- !app_assoc. f_equiv.
  rewrite !app_assoc. f_equiv. apply Permutation_app_comm.
Qed.

Lemma flat_map_perm {A B} (f g : A → list B) (l : list A) :
  Forall (λ x, f x ≡ₚ g x) l → flat_map f l ≡ₚ flat_map g l.
Proof.
  induction 1 as [|x l Hx _ IH]; simpl; [done|]. by rewrite Hx, IH.
Qed.

Lemma flat_map_submseteq {A B} (f g : A → list B) (l : list A) :
  Forall (λ x, f x ⊆+ g x) l → flat_map f l ⊆+ flat_map g l.
Proof.
  induction 1 as [|x l Hx _ IH]; simpl; [done|]. by apply submseteq_app.
Qed.

Lemma submseteq_NoDup {A} (l k : list A) : NoDup k → l ⊆+ k → NoDup l.
Proof.
  intros Hk (k' & Hp)%submseteq_Permutation.
  rewrite Hp in Hk. by apply NoDup_app in Hk as (? & _ & _).
Qed.

Lemma elem_of_flat_map {A B} (f : A → list B) (l : list A) (y : B) :
  y ∈ flat_map f l ↔ ∃ x, x ∈ l ∧ y ∈ f x.
Proof.
  induction l as [|x l IH]; simpl.
  - split; [by intros ?%elem_of_nil | by intros (? & ?%elem_of_nil & _)].
  - rewrite elem_of_app, IH. split.
    + intros [Hy|(x' & Hx' & Hy)]; [exists x | exists x']; split; auto;
        [left | by right].
    + intros (x' & [->|Hx']%elem_of_cons & Hy); [by left | right; eauto].
Qed.

(** ** Trees *)

Lemma node_rect_entries (P : node → Prop) :
  (∀ sz, P (File sz)) →
  (∀ sz es, Forall (λ e, P e.2) es → P (Dir sz es)) →
  ∀ n, P n.
Proof.
  intros HFile HDir. fix IH 1. intros [sz|sz es].
  - apply HFile.
  - apply HDir. induction es as [|e es IHes]; constructor; [apply IH | apply IHes].
Qed.

(** The walk meets the files that lie under a directory, each once. *)
Lemma walk_files_perm n : ∀ top, walk_files top n ≡ₚ files_under top n.
Proof.
  induction n as [sz|sz es IH] using node_rect_entries; intros top; simpl; [done|].
  unfold files_here. rewrite flat_map_app_perm. apply flat_map_perm.
  eapply Forall_impl; [exact IH|]. intros [name [sz'|sz' es']] Hc; simpl; [done|].
  apply Hc.
Qed.

(** The folders the walk yields and the paths of the files it meets are
    paths of nodes under [top], each taken once. *)
Lemma walk_paths_submseteq n : ∀ top,
  (os.walk_node top n).*1.*1 ++ (path_of <$> walk_files top n)
    ⊆+ (paths_under top n).*1.
Proof.
  induction n as [sz|sz es IH] using node_rect_entries; intros top; simpl.
  - apply submseteq_nil_l.
  - apply submseteq_skip.
    rewrite fmap_app, !fmap_flat_map. unfold files_here. rewrite !fmap_flat_map.
    rewrite (Permutation_app_comm (flat_map _ es) (flat_map _ es ++ _)).
    rewrite <- app_assoc, flat_map_app_perm, flat_map_app_perm.
    apply flat_map_submseteq.
    eapply Forall_impl; [exact IH|]. intros [name [sz'|sz' es']] Hc; simpl.
    + done.
    + specialize (Hc (os.path_join top name)). simpl in Hc.
      rewrite Permutation_app_comm. simpl. exact Hc.
Qed.

(** A file the walk meets is a node under [top], at its path. *)
Lemma walk_files_paths n : ∀ top f,
  f ∈ walk_files top n → (path_of f, File f.2) ∈ paths_under top n.
Proof.
  induction n as [sz|sz es IH] using node_rect_entries; intros top f; simpl.
  - by intros ?%elem_of_nil.
  - rewrite Forall_forall in IH.
    unfold files_here. rewrite elem_of_app, !elem_of_flat_map.
    intros [([name c] & He & Hf)|([name c] & He & Hf)]; simpl in Hf;
      right; apply elem_of_flat_map; exists (name, c); (split; [done|]); simpl.
    + destruct c as [sz'|sz' es']; [|by apply elem_of_nil in Hf].
      apply list_elem_of_singleton in Hf as ->. left.
    + destruct c as [sz'|sz' es']; [by apply elem_of_nil in Hf|].
      apply (IH _ He). exact Hf.
Qed.

(** The folder of a file the walk meets is a folder the walk yields. *)
Lemma walk_files_folder n : ∀ top f,
  f ∈ walk_files top n → f.1.1 ∈ (os.walk_node top n).*1.*1.
Proof.
  induction n as [sz|sz es IH] using node_rect_entries; intros top f; simpl.
  - by intros ?%elem_of_nil.
  - rewrite Forall_forall in IH.
    unfold files_here. rewrite elem_of_app, !elem_of_flat_map.
    intros [([name c] & He & Hf)|([name c] & He & Hf)]; simpl in Hf.
    + destruct c as [sz'|sz' es']; [|by apply elem_of_nil in Hf].
      apply list_elem_of_singleton in Hf as ->. left.
    + destruct c as [sz'|sz' es']; [by apply elem_of_nil in Hf|].
      right. rewrite !fmap_flat_map. apply elem_of_flat_map.
      exists (name, Dir sz' es'). split; [done|]. apply (IH _ He). exact Hf.
Qed.

(** ** The scan of a directory *)

Section scan_directory.
Context (fs : string → option node).
Context (guess_type : string → option string).
Context (directory : string).

Local Abbreviation step := (visit fs guess_type directory).
Local Abbreviation outer :=
  (λ '(root, _, files) st, for_each files (visit_file fs guess_type directory root) st).

(** The inner loop over the file names of a listing. *)
Lemma for_each_filenames top es st :
  for_each (os.filenames es) (visit_file fs guess_type directory top) st
    = for_each (files_here top es) step st.
Proof.
  unfold os.filenames, files_here. revert st.
  induction es as [|[name [sz|sz es']] es IH]; intros st; [done| |].
  - rewrite filter_cons_True by done. cbn [fmap list_fmap flat_map app for_each].
    apply bind_ext. intros st'. apply IH.
  - rewrite filter_cons_False by done. apply IH.
Qed.

(** The two nested loops visit the files in the order of the walk. *)
Lemma for_each_walk n : ∀ top st,
  for_each (os.walk_node top n) outer st = for_each (walk_files top n) step st.
Proof.
  induction n as [sz|sz es IH] using node_rect_entries; intros top st; [done|].
  cbn [os.walk_node walk_files for_each].
  rewrite for_each_app, for_each_filenames. apply bind_ext. clear st. intros st.
  revert st. induction IH as [|[name c] es Hc _ IHes]; intros st; [done|].
  cbn [flat_map]. rewrite !for_each_app.
  destruct c as [sz'|sz' es']; cbn [os.is_dir snd fst].
  - cbn [for_each]. rewrite !bind_ret. apply IHes.
  - rewrite Hc. apply bind_ext. intros st'. apply IHes.
Qed.

(** Where [fs] shows the tree [n] at [directory], a directory, the scan
    returns, with the records of the files of the walk, in its order. *)
Lemma get_file_info_directory sz es :
  shows fs directory (Dir sz es) →
  ∃ log t,
    get_file_info fs guess_type directory
      = (log, Return (record_of guess_type <$> walk_files directory (Dir sz es), t)).
Proof.
  intros [Hfs Hnd]. set (n := Dir sz es) in *.
  assert (fs directory = Some n) as Hdir.
  { apply Forall_cons in Hfs as [Hd _]. exact Hd. }
  pose proof (walk_paths_submseteq n directory) as Hsub.
  pose proof (submseteq_NoDup _ _ Hnd Hsub) as Hnd'.
  apply NoDup_app in Hnd' as (_ & Hdisj & Hfiles).
  destruct (scan_files_ok fs guess_type directory (walk_files directory n)
              [] (root_only directory)) as (log & t & Hscan).
  - apply Forall_forall. intros f Hf.
    rewrite Forall_forall in Hfs.
    apply (Hfs (path_of f, File f.2)). by apply walk_files_paths.
  - exact Hfiles.
  - by apply contains_root_only.
  - intros f Hf. destruct (treelib.contains _ _) eqn:E; [|done].
    apply contains_root_only in E. exfalso.
    apply (Hdisj directory); [left | apply list_elem_of_fmap; by exists f].
  - intros f g Hf Hg E.
    apply (Hdisj g.1.1); [by eapply walk_files_folder |].
    apply list_elem_of_fmap. by exists f.
  - eexists _, t. unfold get_file_info. unfold os.path_exists, os.walk.
    rewrite Hdir. cbn [perform bind negb]. rewrite create_root.
    cbn [app]. rewrite for_each_walk, Hscan. reflexivity.
Qed.

End scan_directory.

(** ** Rounding *)





(** *** float64 *)

Lemma digits2_pos_bounds p :
  2 ^ (Zpos (digits2_pos p) - 1) ≤ Zpos p < 2 ^ Zpos (digits2_pos p).
Proof.
  induction p as [p IH|p IH|]; cbn [digits2_pos].
  - rewrite Pos2Z.inj_succ.
    replace (Z.succ (Zpos (digits2_pos p)) - 1) with (Z.succ (Zpos (digits2_pos p) - 1)) by lia.
    rewrite !Z.pow_succ_r by lia. lia.
  - rewrite Pos2Z.inj_succ.
    replace (Z.succ (Zpos (digits2_pos p)) - 1) with (Z.succ (Zpos (digits2_pos p) - 1)) by lia.
    rewrite !Z.pow_succ_r by lia. lia.
  - simpl. lia.
Qed.

Lemma digits2_pos_le p n : 0 ≤ n → Zpos p < 2 ^ n → Zpos (digits2_pos p) ≤ n.
Proof.
  intros Hn Hp. pose proof (digits2_pos_bounds p) as [Hlo _].
  destruct (Z_le_gt_dec (Zpos (digits2_pos p)) n) as [|Hgt]; [done|].
  assert (2 ^ n ≤ 2 ^ (Zpos (digits2_pos p) - 1)) by (apply Z.pow_le_mono_r; lia).
  lia.
Qed.

Lemma iter_xO p k :
  Zpos (Pos.iter xO p k) = Zpos p * 2 ^ Zpos k ∧
  digits2_pos (Pos.iter xO p k) = (digits2_pos p + k)%positive.
Proof.
  induction k as [|k IH] using Pos.peano_ind.
  - cbn. split; lia.
  - rewrite Pos.iter_succ. destruct IH as [IH1 IH2].
    cbn [digits2_pos]. rewrite IH2, Pos2Z.inj_xO, IH1, Pos2Z.inj_succ.
    rewrite Z.pow_succ_r by lia. split; lia.
Qed.

(** A mantissa of 53 digits with an exponent in range is a double as it
    stands. *)
Lemma binary_round_aux_exact sx m e :
  Zpos (digits2_pos m) = 53 → -1074 ≤ e ≤ 971 →
  binary_round_aux f64.prec f64.emax sx (Zpos m) e loc_Exact = S754_finite sx m e.
Proof.
  intros Hd He.
  assert (fexp f64.prec f64.emax (Zdigits2 (Zpos m) + e) - e = 0) as Hshift.
  { unfold fexp, emin, f64.prec, f64.emax. cbn [Zdigits2]. lia. }
  unfold binary_round_aux, shr_fexp. rewrite Hshift. cbn [shr_record_of_loc shr].
  cbn [shr_m loc_of_shr_record round_nearest_even]. rewrite Hshift. cbn [shr shr_m].
  assert ((e <=? f64.emax - f64.prec) = true) as ->; [|done].
  apply Z.leb_le. unfold f64.emax, f64.prec. lia.
Qed.

(** Below 2^53 the quotient by 1024 is a double. *)
Lemma div_pow2_exact p :
  Zpos p < 2 ^ 53 →
  ∃ m k, f64.div_pow2 (Zpos p) 10 = S754_finite false m (Zneg k) ∧
         Zpos m * 1024 = Zpos p * Zpos (2 ^ k).
Proof.
  intros Hp. pose proof (digits2_pos_le p 53 ltac:(lia) Hp) as Hd.
  change (f64.div_pow2 (Zpos p) 10)
    with (binary_round f64.prec f64.emax false p (-10)).
  unfold binary_round.
  assert (fexp f64.prec f64.emax (Zpos (digits2_pos p) + -10)
          = Zpos (digits2_pos p) - 63) as ->.
  { unfold fexp, emin, f64.prec, f64.emax. lia. }
  unfold shl_align.
  replace (Zpos (digits2_pos p) - 63 - -10) with (Zpos (digits2_pos p) - 53) by lia.
  destruct (Zpos (digits2_pos p) - 53) as [|k|k] eqn:E; [| lia |].
  - rewrite binary_round_aux_exact by lia.
    exists p, 10%positive. split; [done|]. reflexivity.
  - destruct (iter_xO p k) as [Hv Hdig].
    rewrite binary_round_aux_exact by (rewrite ?Hdig; lia).
    assert (Zpos (digits2_pos p) - 63 < 0) as Hneg by lia.
    destruct (Zpos (digits2_pos p) - 63) as [|j|j] eqn:E'; [lia | lia |].
    exists (Pos.iter xO p k), j. split; [done|].
    rewrite Hv, Pos2Z.inj_pow.
    assert (Zpos j = Zpos k + 10) as -> by lia.
    rewrite Z.pow_add_r by lia. lia.
Qed.

(** [round2] does not depend on the fraction that writes the rational. *)
Lemma round2_scale (c : positive) n d :
  round2 ((Zpos c * n) # (c * d)) = round2 (n # d).
Proof.
  unfold round2. cbn [Qnum Qden]. rewrite Pos2Z.inj_mul.
  replace (Zpos c * n * 100) with (Zpos c * (n * 100)) by lia.
  rewrite Z.div_mul_cancel_l by lia.
  rewrite Z.mul_mod_distr_l by lia.
  set (q := (n * 100) `div` Zpos d). set (r := (n * 100) `mod` Zpos d).
  assert ((2 * (Zpos c * r) <? Zpos c * Zpos d) = (2 * r <? Zpos d)) as ->.
  { destruct (Z.ltb_spec (2 * r) (Zpos d)).
    - apply Z.ltb_lt. nia.
    - apply Z.ltb_ge. nia. }
  assert ((Zpos c * Zpos d <? 2 * (Zpos c * r)) = (Zpos d <? 2 * r)) as ->.
  { destruct (Z.ltb_spec (Zpos d) (2 * r)).
    - apply Z.ltb_lt. nia.
    - apply Z.ltb_ge. nia. }
  done.
Qed.

Lemma round2_Qeq (x y : Q) : (x == y)%Q → round2 x = round2 y.
Proof.
  destruct x as [nx dx], y as [ny dy]. unfold Qeq. cbn [Qnum Qden]. intros E.
  rewrite <- (round2_scale dy nx dx), <- (round2_scale dx ny dy).
  f_equal. f_equal; [lia|]. apply Pos.mul_comm. 
Qed.

(** For a file of less than 2^53 bytes the division by 1024 is exact. *)
Lemma div_pow2_value (file_size : N) :
  (file_size < 2 ^ 53)%N →
  (f64.to_Q (f64.div_pow2 (Z.of_N file_size) 10)
   == true_div (Z.of_N file_size) 1024)%Q.
Proof.
  intros Hlt. destruct file_size as [|p]; [reflexivity|].
  assert (Zpos p < 2 ^ 53) as Hp by lia.
  destruct (div_pow2_exact p Hp) as (m & k & E & Hm).
  cbn [Z.of_N]. rewrite E.
  unfold f64.to_Q, true_div. cbn [cond_Zopp].
  unfold Qeq, Qdiv, Qmult, Qinv, inject_Z. cbn [Qnum Qden Z.mul Pos.mul].
  cbn. lia.
Qed.

(** The size is then the two-decimal number nearest to the quotient. *)
Lemma size_kb_exact (file_size : N) :
  (file_size < 2 ^ 53)%N →
  size_kb file_size = round2 (true_div (Z.of_N file_size) 1024).
Proof.
  intros Hlt. unfold size_kb, f64.hundredths.
  by apply round2_Qeq, div_pow2_value.
Qed.

(** The double of that size is the double of the code. *)
Lemma size_kb_float (file_size : N) :
  (file_size < 2 ^ 53)%N →
  f64.size_kb file_size = f64.of_hundredths (size_kb file_size).
Proof.
  intros Hlt. unfold f64.size_kb, size_kb.
  destruct file_size as [|p]; [reflexivity|].
  assert (Zpos p < 2 ^ 53) as Hp by lia.
  destruct (div_pow2_exact p Hp) as (m & k & E & Hm).
  cbn [Z.of_N]. by rewrite E.
Qed.






(** ** The scanner *)

Lemma sample_shows : shows sample_fs "d" sample_dir.
Proof.
  split.
  - repeat constructor.
  - apply (bool_decide_unpack _). vm_compute. exact I.
Defined.

(** The calls of a scan that finds no file to visit. *)
Lemma get_file_info_no_visit fs guess_type directory n :
  fs directory = Some n →
  walk_files directory n = [] →
  get_file_info fs guess_type directory =
    ([os_path_exists directory; treelib_Tree;
      tree_create_node directory directory None; os_walk directory],
     Return ([], root_only directory)).
Proof.
  intros Hdir Hnone. unfold get_file_info, os.path_exists, os.walk.
  rewrite Hdir. cbn [perform bind negb]. rewrite create_root. cbn [app].
  by rewrite for_each_walk, Hnone.
Qed.

(** Where [fs] shows [n] at [directory], the scan returns one record for
    each file under [directory]. *)
Lemma scan_returns fs guess_type directory n :
  shows fs directory n →
  ∃ log t files,
    get_file_info fs guess_type directory
      = (log, Return (record_of guess_type <$> files, t)) ∧
    files ≡ₚ files_under directory n.
Proof.
  intros Hshows. destruct n as [sz|sz es].
  - eexists _, _, []. split; [|done].
    apply get_file_info_no_visit with (n := File sz); [|done].
    destruct Hshows as [Hfs _]. by apply Forall_cons in Hfs as [? _].
  - destruct (get_file_info_directory fs guess_type directory sz es Hshows)
      as (log & t & Hscan).
    exists log, t, (walk_files directory (Dir sz es)).
    split; [exact Hscan | apply walk_files_perm].
Qed.

(** C2.  For a path that does not exist, the scan raises the not-found
    error straight after its existence test: it makes no other call, so no
    tree is created and nothing is walked, and the program goes on to print
    the error without any call of the reporter. *)
Theorem get_file_info_not_found fs guess_type directory :
  fs directory = None →
  get_file_info fs guess_type directory =
    ([os_path_exists directory],
     Raise (FileNotFoundError
       "The specified file path does not exist. Please provide a valid directory.")) ∧
  main fs guess_type directory =
    ([input "Enter the directory path: "; os_path_exists directory;
      print "Error: The specified file path does not exist. Please provide a valid directory."],
     Return ()) ∧
  Forall (λ c, scans c = false ∧ opens_window c = false ∧
               renders_chart c = false ∧ writes_pdf c = false)
    (calls (main fs guess_type directory)).
Proof.
  intros Hnone.
  assert (get_file_info fs guess_type directory =
          ([os_path_exists directory], Raise (FileNotFoundError not_found_msg))) as Hscan.
  { unfold get_file_info, os.path_exists. by rewrite Hnone. }
  split; [exact Hscan|].
  assert (main fs guess_type directory =
    ([input "Enter the directory path: "; os_path_exists directory;
      print ("Error: " +:+ not_found_msg)], Return ())) as Hmain.
  { unfold main. by rewrite Hscan. }
  split; [exact Hmain|]. rewrite Hmain. repeat constructor.
Qed.

Lemma get_file_info_not_found_witness :
  sample_fs "nowhere" = None ∧
  result (get_file_info sample_fs sample_guess_type "nowhere") =
    Raise (FileNotFoundError not_found_msg).
Proof.
  split; [reflexivity|].
  destruct (get_file_info_not_found sample_fs sample_guess_type "nowhere" eq_refl)
    as [-> _].
  reflexivity.
Defined.











(** The scenario of the specification: a 2048-byte text file and a
    512-byte file of no known type give the sizes 2.0 and 0.5, two type
    keys with those sizes, and one folder key counting 2. *)
Example scenario_two_files :
  ∃ file_data t,
    result (get_file_info scenario_fs scenario_guess_type "s") = Return (file_data, t) ∧
    File_Size_KB <$> file_data = [200; 50] ∧
    File_Size <$> file_data
      = [S754_finite false 4503599627370496 (-51);
         S754_finite false 4503599627370496 (-53)] ∧
    map_to_list (file_size_by_type (aggregate file_data))
      ≡ₚ [("text/plain", S754_finite false 4503599627370496 (-51));
          ("Unknown", S754_finite false 4503599627370496 (-53))] ∧
    map_to_list (folder_count (aggregate file_data)) = [("s", 2%nat)].
Proof.
  eexists _, _. split; [vm_compute; reflexivity|].
  split; [reflexivity|]. split; [vm_compute; reflexivity|]. split.
  - vm_compute. apply Permutation_swap || reflexivity.
  - vm_compute. reflexivity.
Qed.

Lemma type_label_cases (file_type : option string) :
  type_label file_type ≠ "" ∧
  (file_type = Some (type_label file_type) ∨ type_label file_type = "Unknown") ∧
  (file_type = None → type_label file_type = "Unknown").
Proof.
  destruct file_type as [[|a s]|]; simpl; repeat split; auto; done.
Qed.

(** C5.  The type of a record is the type guessed for the path of its
    file, or the literal "Unknown"; it is never empty; and it is "Unknown"
    whenever the guess gives no type. *)
Theorem file_type_is_guessed_or_unknown fs guess_type directory n :
  shows fs directory n →
  ∃ log file_data t files,
    get_file_info fs guess_type directory = (log, Return (file_data, t)) ∧
    files ≡ₚ files_under directory n ∧
    Forall2 (λ r f,
      Folder r = f.1.1 ∧ File_Name r = f.1.2 ∧
      File_Type r ≠ "" ∧
      (guess_type (path_of f) = Some (File_Type r) ∨ File_Type r = "Unknown") ∧
      (guess_type (path_of f) = None → File_Type r = "Unknown"))
      file_data files.
Proof.
  intros Hshows.
  destruct (scan_returns fs guess_type directory _ Hshows)
    as (log & t & files & Hscan & Hperm).
  exists log, (record_of guess_type <$> files), t, files.
  split; [exact Hscan|]. split; [exact Hperm|].
  apply Forall2_fmap_l, Forall_Forall2_diag, Forall_forall.
  intros f _. cbn [record_of Folder File_Name File_Type].
  pose proof (type_label_cases (guess_type (path_of f))) as (? & ? & ?).
  done.
Qed.

Lemma file_type_is_guessed_or_unknown_witness :
  shows sample_fs "d" sample_dir ∧
  ∃ file_data t,
    result (get_file_info sample_fs sample_guess_type "d") = Return (file_data, t) ∧
    File_Type <$> file_data = ["text/plain"; "Unknown"; "Unknown"].
Proof.
  split; [exact sample_shows|].
  destruct (file_type_is_guessed_or_unknown sample_fs sample_guess_type "d" _
              sample_shows)
    as (log & file_data & t & files & Hscan & _).
  exists file_data, t. rewrite Hscan. split; [reflexivity|].
  assert (Return (file_data, t) =
          result (get_file_info sample_fs sample_guess_type "d")) as E
    by (by rewrite Hscan).
  vm_compute in E. by injection E as -> _.
Defined.

(** C6.  For an existing directory with no file under it, the scan does
    not raise: it returns no record, and the tree of the root node alone. *)
Theorem get_file_info_empty_directory fs guess_type directory sz es :
  fs directory = Some (Dir sz es) →
  files_under directory (Dir sz es) = [] →
  get_file_info fs guess_type directory =
    ([os_path_exists directory; treelib_Tree;
      tree_create_node directory directory None; os_walk directory],
     Return ([], root_only directory)).
Proof.
  intros Hdir Hnone. apply get_file_info_no_visit with (n := Dir sz es); [done|].
  apply Permutation_nil_r. rewrite <- Hnone. apply walk_files_perm.
Qed.

Lemma get_file_info_empty_directory_witness :
  sample_fs "e" = Some (Dir 4096 [("empty", Dir 4096 [])]) ∧
  files_under "e" (Dir 4096 [("empty", Dir 4096 [])]) = [] ∧
  result (get_file_info sample_fs sample_guess_type "e") = Return ([], root_only "e").
Proof.
  split; [reflexivity|]. split; [reflexivity|].
  rewrite (get_file_info_empty_directory sample_fs sample_guess_type "e" _ _
             eq_refl eq_refl).
  reflexivity.
Defined.

(** C10.  For a path that is a regular file, the scan does not raise: the
    existence test passes, the walk yields nothing, and the scan returns no
    record and the tree of the root node alone, named after the path. *)
Theorem get_file_info_regular_file fs guess_type directory sz :
  fs directory = Some (File sz) →
  os.path_exists fs directory = true ∧
  os.walk fs directory = [] ∧
  get_file_info fs guess_type directory =
    ([os_path_exists directory; treelib_Tree;
      tree_create_node directory directory None; os_walk directory],
     Return ([], root_only directory)) ∧
  treelib.nodes (root_only directory) =
    {[ directory := {| treelib.tag := directory; treelib.predecessor := None |} ]}.
Proof.
  intros Hfile. unfold os.path_exists, os.walk. rewrite Hfile.
  repeat split. by apply get_file_info_no_visit with (n := File sz).
Qed.

Lemma get_file_info_regular_file_witness :
  sample_fs "d/b" = Some (File 512) ∧
  result (get_file_info sample_fs sample_guess_type "d/b")
    = Return ([], root_only "d/b").
Proof.
  split; [reflexivity|].
  destruct (get_file_info_regular_file sample_fs sample_guess_type "d/b" 512 eq_refl)
    as (_ & _ & -> & _).
  reflexivity.
Defined.

(** ** The program *)

(** On a directory with no file under it, or on a regular file, the
    program scans, prints the notice and ends: the reporter opens no
    window, renders no chart and writes no PDF. *)
Lemma main_no_files fs guess_type directory n :
  fs directory = Some n →
  files_under directory n = [] →
  main fs guess_type directory =
    ([input "Enter the directory path: "; os_path_exists directory; treelib_Tree;
      tree_create_node directory directory None; os_walk directory;
      print "No files found in the specified directory."],
     Return ()).
Proof.
  intros Hdir Hnone. unfold main.
  rewrite (get_file_info_no_visit fs guess_type directory n Hdir); [reflexivity|].
  apply Permutation_nil_r. rewrite <- Hnone. apply walk_files_perm.
Qed.

(** ** Labels *)

Lemma string_app_nil (s : string) : "" +:+ s = s.
Proof. reflexivity. Qed.

Lemma string_app_cons c (s1 s2 : string) :
  String c s1 +:+ s2 = String c (s1 +:+ s2).
Proof. reflexivity. Qed.

Lemma rfind_sep_from_none s : ∀ i last,
  has_sep s = false → posixpath.rfind_sep_from i last s = last.
Proof.
  induction s as [|c s IH]; intros i last Hs; simpl in *; [done|].
  apply orb_false_iff in Hs as [-> Hs]. by apply IH.
Qed.

Lemma rfind_sep_from_last pre b : ∀ i last,
  has_sep b = false →
  posixpath.rfind_sep_from i last (pre +:+ String "/" b)
    = i + Z.of_nat (String.length pre).
Proof.
  induction pre as [|c pre IH]; intros i last Hb.
  - rewrite string_app_nil. simpl. rewrite rfind_sep_from_none by done. lia.
  - rewrite string_app_cons. simpl. rewrite IH by done. lia.
Qed.

Lemma string_length_app (s1 s2 : string) :
  String.length (s1 +:+ s2) = (String.length s1 + String.length s2)%nat.
Proof.
  induction s1 as [|c s1 IH]; [done|].
  rewrite string_app_cons. simpl. by rewrite IH.
Qed.

Lemma string_app_assoc (s1 s2 s3 : string) :
  (s1 +:+ s2) +:+ s3 = s1 +:+ (s2 +:+ s3).
Proof.
  induction s1 as [|c s1 IH]; [done|].
  rewrite !string_app_cons. by rewrite IH.
Qed.

Lemma drop_length_app pre s :
  posixpath.drop (String.length pre) (pre +:+ s) = s.
Proof.
  induction pre as [|c pre IH]; [by destruct s|].
  rewrite string_app_cons. simpl. exact IH.
Qed.

(** A name without separator is its own base name. *)
Lemma basename_none s : has_sep s = false → posixpath.basename s = s.
Proof.
  intros Hs. unfold posixpath.basename, posixpath.rfind_sep.
  rewrite rfind_sep_from_none by done. by destruct s.
Qed.

(** The base name is what follows the last separator. *)
Lemma basename_last pre b :
  has_sep b = false → posixpath.basename (pre +:+ String "/" b) = b.
Proof.
  intros Hb. unfold posixpath.basename, posixpath.rfind_sep.
  rewrite rfind_sep_from_last by done.
  replace (Z.to_nat (0 + Z.of_nat (String.length pre) + 1))
    with (String.length (pre +:+ "/")).
  2:{ rewrite string_length_app. simpl. lia. }
  replace (pre +:+ String "/" b) with ((pre +:+ "/") +:+ b).
  2:{ by rewrite string_app_assoc. }
  apply drop_length_app.
Qed.


Lemma endswith_sep_split a :
  os.endswith_sep a = true → ∃ pre, a = pre +:+ "/".
Proof.
  induction a as [|c a IH]; simpl; [done|].
  intros Ha. destruct a as [|c' a'].
  - destruct (Ascii.eqb_spec c "/") as [->|Hc]; [by exists ""|].
    exfalso. revert Ha Hc. clear. destruct c as [[] [] [] [] [] [] [] []]; done.
  - assert (os.endswith_sep (String c' a') = true) as Ha'.
    { revert Ha. clear. destruct c as [[] [] [] [] [] [] [] []]; done. }
    destruct (IH Ha') as (pre & Hpre). exists (String c pre).
    rewrite string_app_cons. by rewrite <- Hpre.
Qed.

Lemma startswith_sep_none s : has_sep s = false → os.startswith_sep s = false.
Proof.
  destruct s as [|c s]; simpl; [done|]. intros [Hc _]%orb_false_iff.
  revert Hc. clear. destruct c as [[] [] [] [] [] [] [] []]; done.
Qed.

(** The base name of a joined path is the name joined, when the name has
    no separator in it. *)
Lemma basename_path_join top name :
  has_sep name = false → posixpath.basename (os.path_join top name) = name.
Proof.
  intros Hn. unfold os.path_join. rewrite startswith_sep_none by done.
  destruct (String.eqb_spec top "") as [->|Htop]; simpl.
  - by apply basename_none.
  - destruct (os.endswith_sep top) eqn:He.
    + destruct (endswith_sep_split top He) as (pre & ->).
      rewrite string_app_assoc. simpl. by apply basename_last.
    + by apply basename_last.
Qed.

(** *** The length of a Python string *)









(** X18.  A key of more than 15 characters that ends with the separator,
    as a folder typed with a trailing slash, gets the empty label. *)
Theorem shortened_label_trailing_sep (x : string) :
  (15 < py.len x)%nat →
  os.endswith_sep x = true →
  shortened_label x = "".
Proof.
  intros Hlen Hend. unfold shortened_label.
  apply Nat.ltb_lt in Hlen. rewrite Hlen.
  destruct (endswith_sep_split x Hend) as (pre & ->).
  by apply basename_last.
Qed.

Lemma shortened_label_trailing_sep_witness :
  (15 < py.len "/home/user/documents/")%nat ∧
  os.endswith_sep "/home/user/documents/" = true ∧
  shortened_label "/home/user/documents/" = "".
Proof.
  assert (15 < py.len "/home/user/documents/")%nat as Hlen
    by (vm_compute; lia).
  split; [exact Hlen|]. split; [reflexivity|].
  exact (shortened_label_trailing_sep "/home/user/documents/" Hlen eq_refl).
Defined.

(** X19.  The key of a subfolder, when it has more than 15 characters, is
    labelled with the name of the subfolder alone. *)
Theorem shortened_label_subfolder (top name : string) :
  has_sep name = false →
  (15 < py.len (os.path_join top name))%nat →
  shortened_label (os.path_join top name) = name.
Proof.
  intros Hname Hlen. unfold shortened_label.
  apply Nat.ltb_lt in Hlen. rewrite Hlen. by apply basename_path_join.
Qed.

Lemma shortened_label_subfolder_witness :
  has_sep "holidays" = false ∧
  (15 < py.len (os.path_join "/home/user/photos" "holidays"))%nat ∧
  shortened_label (os.path_join "/home/user/photos" "holidays") = "holidays".
Proof.
  assert (15 < py.len (os.path_join "/home/user/photos" "holidays"))%nat
    as Hlen by (vm_compute; lia).
  split; [reflexivity|]. split; [exact Hlen|].
  exact (shortened_label_subfolder "/home/user/photos" "holidays" eq_refl Hlen).
Defined.

(** X20.  Labels can collide: two folders of the same name under
    different parents, both with keys of more than 15 characters, get the
    same label. *)
Theorem shortened_label_collision (top top' name : string) :
  has_sep name = false →
  (15 < py.len (os.path_join top name))%nat →
  (15 < py.len (os.path_join top' name))%nat →
  shortened_label (os.path_join top name) = shortened_label (os.path_join top' name).
Proof.
  intros Hname Hlen Hlen'.
  apply Nat.ltb_lt in Hlen, Hlen'. unfold shortened_label. rewrite Hlen, Hlen'.
  by rewrite !basename_path_join.
Qed.

Lemma shortened_label_collision_witness :
  os.path_join "/home/user/photos" "2024" ≠ os.path_join "/home/user/videos" "2024" ∧
  shortened_label (os.path_join "/home/user/photos" "2024")
    = shortened_label (os.path_join "/home/user/videos" "2024").
Proof.
  split; [by vm_compute|].
  apply shortened_label_collision; [reflexivity | vm_compute; lia | vm_compute; lia].
Defined.

(** X21.  The axis has one tick for each key, at the position of the key
    and with the label of that key: bars and labels stay aligned. *)
Theorem axis_ticks_positions (x_data : list string) :
  length (axis_ticks x_data) = length x_data ∧
  (axis_ticks x_data).*1 = x_ticks x_data ∧
  ∀ i, axis_ticks x_data !! i = (λ x, (i, shortened_label x)) <$> x_data !! i.
Proof.
  unfold axis_ticks, shortened_labels, x_ticks.
  assert (∀ i, imap (λ i label, (i, label)) (shortened_label <$> x_data) !! i
             = (λ x, (i, shortened_label x)) <$> x_data !! i) as Hlookup.
  { intros i. rewrite list_lookup_imap, list_lookup_fmap.
    by destruct (x_data !! i). }
  split; [by rewrite length_imap, length_fmap|]. split; [|exact Hlookup].
  apply list_eq. intros i. rewrite list_lookup_fmap, Hlookup.
  destruct (x_data !! i) as [x|] eqn:Hi; simpl.
  - symmetry. apply lookup_seq. split; [done|]. by apply lookup_lt_Some in Hi.
  - symmetry. apply lookup_seq_ge. by apply lookup_ge_None in Hi.
Qed.

(** ** The scan, call by call *)

Lemma contains_lookup t p :
  treelib.contains t p = true ↔ is_Some (treelib.nodes t !! p).
Proof.
  unfold treelib.contains. destruct (treelib.nodes t !! p); split; done.
Qed.

Lemma contains_lookup_None t p :
  treelib.contains t p = false ↔ treelib.nodes t !! p = None.
Proof. unfold treelib.contains. by destruct (treelib.nodes t !! p). Qed.

Lemma grow_root directory t f :
  treelib.root (grow directory t f) = treelib.root t.
Proof. reflexivity. Qed.

(** The nodes of the tree after a visit. *)
Lemma grow_lookup directory t f p :
  treelib.nodes (grow directory t f) !! p =
    if decide (p = path_of f) then Some (file_node f)
    else if decide (p = f.1.1)
      then Some (default (folder_node directory f.1.1) (treelib.nodes t !! f.1.1))
      else treelib.nodes t !! p.
Proof.
  unfold grow, treelib.contains. cbn [treelib.nodes].
  rewrite lookup_insert. destruct (decide (path_of f = p)) as [->|Hp].
  { by rewrite decide_True. }
  rewrite decide_False by done.
  destruct (treelib.nodes t !! f.1.1) as [nd|] eqn:Hfolder; simpl.
  - case_decide as Hq; [by subst | done].
  - rewrite lookup_insert. case_decide as Hq; [subst|].
    + by rewrite decide_True.
    + by rewrite decide_False.
Qed.

Lemma grow_contains directory t f p :
  treelib.contains (grow directory t f) p = true ↔
    p = path_of f ∨ p = f.1.1 ∨ treelib.contains t p = true.
Proof.
  rewrite !contains_lookup, grow_lookup.
  repeat case_decide; split; eauto; intros [?|[?|?]]; eauto; done.
Qed.

Section scan_exact.
Context (fs : string → option node).
Context (guess_type : string → option string).
Context (directory : string).

Local Abbreviation step := (visit fs guess_type directory).

(** The visit of a file, exactly: its calls, its record, its nodes. *)
Lemma visit_exact f file_data t :
  fs (path_of f) = Some (File f.2) →
  treelib.contains t directory = true →
  treelib.contains t (path_of f) = false →
  path_of f ≠ f.1.1 →
  step f (file_data, t) =
    (visit_calls directory t f,
     Return (file_data ++ [record_of guess_type f], grow directory t f)).
Proof.
  destruct f as [[root file] sz].
  unfold path_of, visit, visit_file, visit_calls, grow, record_of. cbn [fst snd].
  intros Hfs Hdir Hnew Hne.
  unfold os.path_getsize. rewrite Hfs.
  destruct (treelib.contains t root) eqn:Hroot.
  - cbn [negb perform bind ret app]. unfold treelib.create_node.
    rewrite Hnew, Hroot. reflexivity.
  - cbn [negb perform bind ret app]. unfold treelib.create_node at 1.
    rewrite Hroot, Hdir. cbn [bind app]. unfold treelib.create_node.
    unfold treelib.contains at 1 2. cbn [treelib.nodes treelib.root].
    rewrite lookup_insert_ne by done.
    apply contains_lookup_None in Hnew. rewrite Hnew.
    rewrite lookup_insert_eq. reflexivity.
Qed.

(** The visits of a list of files, exactly. *)
Lemma scan_exact (files : list (string * string * N)) : ∀ file_data t,
  Forall (λ f, fs (path_of f) = Some (File f.2)) files →
  NoDup (path_of <$> files) →
  treelib.contains t directory = true →
  (∀ f, f ∈ files → treelib.contains t (path_of f) = false) →
  (∀ f g, f ∈ files → g ∈ files → path_of f ≠ g.1.1) →
  for_each files step (file_data, t) =
    (scan_calls directory t files,
     Return (file_data ++ (record_of guess_type <$> files),
             foldl (grow directory) t files)).
Proof.
  induction files as [|f files IH]; intros file_data t Hfs Hnd Hdir Hnew Hroots.
  - simpl. by rewrite app_nil_r.
  - apply Forall_cons in Hfs as [Hf Hfs].
    rewrite fmap_cons in Hnd. apply NoDup_cons in Hnd as [Hf_nd Hnd].
    cbn [for_each scan_calls foldl].
    rewrite visit_exact; [|done|done|apply Hnew; left|apply Hroots; left].
    cbn [bind]. rewrite IH; [|done|done| | |].
    + by rewrite fmap_cons, <- app_assoc.
    + apply grow_contains. auto.
    + intros g Hg.
      destruct (treelib.contains (grow directory t f) (path_of g)) eqn:E; [|done].
      apply grow_contains in E as [E|[E|E]].
      * exfalso. apply Hf_nd. rewrite <- E. apply list_elem_of_fmap. eauto.
      * exfalso. eapply (Hroots g f); [by right | left | done].
      * rewrite Hnew in E; [done | by right].
    + intros g h Hg Hh. apply Hroots; by right.
Qed.

End scan_exact.

(** The paths a scan asks the size and the type of are those of the files
    visited, in order. *)
Lemma scan_calls_sized directory files : ∀ t,
  sized (scan_calls directory t files) = path_of <$> files ∧
  guessed (scan_calls directory t files) = path_of <$> files.
Proof.
  induction files as [|f files IH]; intros t; [done|].
  cbn [scan_calls]. unfold sized, guessed, visit_calls in *.
  rewrite !omap_app. destruct (IH (grow directory t f)) as [-> ->].
  by destruct (treelib.contains t f.1.1).
Qed.

(** The nodes of the tree after the visits of a list of files whose paths
    differ from one another and from every folder. *)
Lemma grow_all directory files : ∀ t,
  NoDup (path_of <$> files) →
  (∀ f g, f ∈ files → g ∈ files → path_of f ≠ g.1.1) →
  treelib.root (foldl (grow directory) t files) = treelib.root t ∧
  (∀ f, f ∈ files →
     treelib.nodes (foldl (grow directory) t files) !! path_of f
       = Some (file_node f)) ∧
  (∀ f, f ∈ files →
     treelib.nodes (foldl (grow directory) t files) !! f.1.1
       = Some (default (folder_node directory f.1.1) (treelib.nodes t !! f.1.1))) ∧
  (∀ p, (∀ f, f ∈ files → p ≠ path_of f ∧ p ≠ f.1.1) →
     treelib.nodes (foldl (grow directory) t files) !! p = treelib.nodes t !! p).
Proof.
  induction files as [|f files IH]; intros t Hnd Hroots.
  { repeat split; try done; by intros f ?%elem_of_nil. }
  rewrite fmap_cons in Hnd. apply NoDup_cons in Hnd as [Hf_nd Hnd].
  assert (∀ g h, g ∈ files → h ∈ files → path_of g ≠ h.1.1) as Hroots'
    by (intros; apply Hroots; by right).
  destruct (IH (grow directory t f) Hnd Hroots') as (IH1 & IH2 & IH3 & IH4).
  assert (path_of f ≠ f.1.1) as Hff by (apply Hroots; left).
  assert (∀ g, g ∈ files → path_of f ≠ path_of g) as Hfg.
  { intros g Hg E. apply Hf_nd. rewrite E. apply list_elem_of_fmap. eauto. }
  assert (treelib.nodes (grow directory t f) !! f.1.1
          = Some (default (folder_node directory f.1.1) (treelib.nodes t !! f.1.1)))
    as Hfolder.
  { rewrite grow_lookup, decide_False, decide_True; done. }
  cbn [foldl]. split; [by rewrite IH1|]. split; [|split].
  - intros g [->|Hg]%elem_of_cons; [|by apply IH2].
    rewrite IH4.
    + by rewrite grow_lookup, decide_True.
    + intros g Hg. split; [by apply Hfg | apply Hroots; [left | by right]].
  - intros g [->|Hg]%elem_of_cons.
    + destruct (decide (f.1.1 ∈ (λ g, g.1.1) <$> files)) as [Hin|Hout].
      * apply list_elem_of_fmap in Hin as (g & Hg1 & Hg).
        rewrite Hg1, (IH3 g Hg), <- Hg1, Hfolder. done.
      * rewrite IH4; [exact Hfolder|].
        intros g Hg. split.
        -- intros E. eapply (Hroots g f); [by right | left | done].
        -- intros E. apply Hout. apply list_elem_of_fmap. eauto.
    + rewrite (IH3 g Hg). f_equal.
      rewrite grow_lookup.
      rewrite decide_False.
      2:{ intros E. eapply (Hroots f g); [left | by right | done]. }
      case_decide as Hgf; [|done]. rewrite Hgf.
      by destruct (treelib.nodes t !! f.1.1).
  - intros p Hp. rewrite IH4.
    + destruct (Hp f) as [? ?]; [left|].
      by rewrite grow_lookup, !decide_False.
    + intros g Hg. apply Hp. by right.
Qed.

(** The paths of the files of a walk differ from one another, from the
    directory walked and from every folder of the walk. *)
Lemma walk_files_fresh directory sz es :
  NoDup (paths_under directory (Dir sz es)).*1 →
  NoDup (path_of <$> walk_files directory (Dir sz es)) ∧
  (∀ f, f ∈ walk_files directory (Dir sz es) → path_of f ≠ directory) ∧
  (∀ f g, f ∈ walk_files directory (Dir sz es) →
          g ∈ walk_files directory (Dir sz es) → path_of f ≠ g.1.1).
Proof.
  intros Hnd. set (n := Dir sz es) in *.
  pose proof (walk_paths_submseteq n directory) as Hsub.
  pose proof (submseteq_NoDup _ _ Hnd Hsub) as Hnd'.
  apply NoDup_app in Hnd' as (_ & Hdisj & Hfiles).
  split; [exact Hfiles|]. split.
  - intros f Hf E. apply (Hdisj directory); [left|].
    apply list_elem_of_fmap. by exists f.
  - intros f g Hf Hg E.
    apply (Hdisj g.1.1); [by eapply walk_files_folder|].
    apply list_elem_of_fmap. by exists f.
Qed.

(** The scan of what [fs] shows at [directory], exactly. *)
Lemma get_file_info_exact fs guess_type directory n :
  shows fs directory n →
  get_file_info fs guess_type directory =
    ([os_path_exists directory; treelib_Tree;
      tree_create_node directory directory None; os_walk directory] ++
     scan_calls directory (root_only directory) (walk_files directory n),
     Return (record_of guess_type <$> walk_files directory n,
             foldl (grow directory) (root_only directory) (walk_files directory n))).
Proof.
  intros [Hfs Hnd].
  assert (fs directory = Some n) as Hdir.
  { destruct n; by apply Forall_cons in Hfs as [Hd _]. }
  destruct n as [sz|sz es].
  { by apply get_file_info_no_visit with (n := File sz). }
  destruct (walk_files_fresh directory sz es Hnd) as (Hfiles & Hne & Hroots).
  unfold get_file_info, os.path_exists, os.walk.
  rewrite Hdir. cbn [perform bind negb]. rewrite create_root. cbn [app].
  rewrite for_each_walk.
  rewrite (scan_exact fs guess_type directory); [reflexivity| | | | |].
  - apply Forall_forall. intros f Hf. rewrite Forall_forall in Hfs.
    apply (Hfs (path_of f, File f.2)). by apply walk_files_paths.
  - exact Hfiles.
  - by apply contains_root_only.
  - intros f Hf. destruct (treelib.contains _ _) eqn:E; [|done].
    apply contains_root_only in E. by apply Hne in Hf.
  - exact Hroots.
Qed.

Lemma root_only_lookup directory p :
  treelib.nodes (root_only directory) !! p =
    if decide (p = directory)
    then Some {| treelib.tag := directory; treelib.predecessor := None |}
    else None.
Proof.
  unfold root_only. cbn [treelib.nodes]. case_decide as Hp.
  - subst. apply lookup_singleton_eq.
  - by apply lookup_singleton_ne.
Qed.

(** The tree a scan builds from the root node, node by node. *)
Lemma scan_tree directory n :
  NoDup (paths_under directory n).*1 →
  let t := foldl (grow directory) (root_only directory) (walk_files directory n) in
  treelib.root t = Some directory ∧
  treelib.nodes t !! directory
    = Some {| treelib.tag := directory; treelib.predecessor := None |} ∧
  (∀ f, f ∈ files_under directory n →
     f.1.1 ≠ path_of f ∧
     treelib.nodes t !! path_of f = Some (file_node f) ∧
     treelib.nodes t !! f.1.1 =
       Some (if decide (f.1.1 = directory)
             then {| treelib.tag := directory; treelib.predecessor := None |}
             else folder_node directory f.1.1)) ∧
  (∀ p, p ≠ directory →
     (∀ f, f ∈ files_under directory n → p ≠ path_of f ∧ p ≠ f.1.1) →
     treelib.nodes t !! p = None).
Proof.
  intros Hnd.
  assert (NoDup (path_of <$> walk_files directory n) ∧
          (∀ f, f ∈ walk_files directory n → path_of f ≠ directory) ∧
          (∀ f g, f ∈ walk_files directory n →
                  g ∈ walk_files directory n → path_of f ≠ g.1.1))
    as (Hfiles & Hne & Hroots).
  { destruct n as [sz|sz es]; [|by apply walk_files_fresh].
    cbn [walk_files]. split; [apply NoDup_nil_2|].
    split; [intros f Hf | intros f g Hf]; by apply elem_of_nil in Hf. }
  destruct (grow_all directory (walk_files directory n) (root_only directory)
              Hfiles Hroots) as (H1 & H2 & H3 & H4).
  assert (∀ f, f ∈ files_under directory n ↔ f ∈ walk_files directory n) as Hmem.
  { intros f. by rewrite (walk_files_perm n directory). }
  cbv zeta. split; [by rewrite H1|]. split; [|split].
  - destruct (decide (directory ∈ (λ g, g.1.1) <$> walk_files directory n))
      as [Hin|Hout].
    + apply list_elem_of_fmap in Hin as (g & Hg1 & Hg).
      rewrite Hg1 at 1. rewrite (H3 g Hg), <- Hg1, root_only_lookup.
      by rewrite decide_True.
    + rewrite H4; [by rewrite root_only_lookup, decide_True|].
      intros g Hg. split; [intros E; by apply (Hne g) | ].
      intros E. apply Hout. apply list_elem_of_fmap. eauto.
  - intros f Hf%Hmem. split; [intros E; by apply (Hroots f f)|].
    split; [by apply H2|].
    rewrite (H3 f Hf), root_only_lookup. by case_decide.
  - intros p Hp Hfresh. rewrite H4.
    + by rewrite root_only_lookup, decide_False.
    + intros f Hf%Hmem. by apply Hfresh.
Qed.

(** X1.  The tree of a scan: its root is the directory; every file under
    the directory has a leaf, keyed by its path, tagged with its name and
    hanging under its folder; every folder holding a file has a node, hanging
    directly under the root however deep the folder lies; and the tree has
    no other node, so a folder without a file of its own has none. *)
Theorem get_file_info_tree fs guess_type directory n :
  shows fs directory n →
  ∃ log file_data t,
    get_file_info fs guess_type directory = (log, Return (file_data, t)) ∧
    treelib.root t = Some directory ∧
    treelib.nodes t !! directory
      = Some {| treelib.tag := directory; treelib.predecessor := None |} ∧
    (∀ f, f ∈ files_under directory n →
       treelib.nodes t !! path_of f
         = Some {| treelib.tag := f.1.2; treelib.predecessor := Some f.1.1 |} ∧
       (f.1.1 ≠ directory →
        treelib.nodes t !! f.1.1
          = Some {| treelib.tag := f.1.1; treelib.predecessor := Some directory |})) ∧
    (∀ p, p ≠ directory →
       (∀ f, f ∈ files_under directory n → p ≠ path_of f ∧ p ≠ f.1.1) →
       treelib.nodes t !! p = None).
Proof.
  intros Hshows. pose proof Hshows as [_ Hnd].
  destruct (scan_tree directory n Hnd) as (Hroot & Hdir & Hfiles & Hnone).
  eexists _, _, _. split; [by apply get_file_info_exact|].
  split; [exact Hroot|]. split; [exact Hdir|]. split; [|exact Hnone].
  intros f Hf. destruct (Hfiles f Hf) as (_ & Hleaf & Hfolder).
  split; [exact Hleaf|]. intros Hne. by rewrite Hfolder, decide_False.
Qed.

Lemma get_file_info_tree_witness :
  shows sample_fs "d" sample_dir ∧
  ∃ file_data t,
    result (get_file_info sample_fs sample_guess_type "d") = Return (file_data, t) ∧
    treelib.nodes t !! "d/sub/c"
      = Some {| treelib.tag := "c"; treelib.predecessor := Some "d/sub" |} ∧
    treelib.nodes t !! "d/sub"
      = Some {| treelib.tag := "d/sub"; treelib.predecessor := Some "d" |}.
Proof.
  split; [exact sample_shows|].
  destruct (get_file_info_tree sample_fs sample_guess_type "d" _ sample_shows)
    as (log & file_data & t & Hscan & _ & _ & Hfiles & _).
  exists file_data, t. rewrite Hscan. split; [reflexivity|].
  destruct (Hfiles ("d/sub", "c", 128%N)) as [Hleaf Hfolder].
  { apply (bool_decide_unpack _). vm_compute. exact I. }
  split; [exact Hleaf | by apply Hfolder].
Defined.

(** X2.  The tree of a scan is closed and flat: the root is the only node
    without a predecessor, and the predecessor of any other node is a node
    of the tree that is the root or hangs under the root. *)
Theorem get_file_info_tree_closed fs guess_type directory n :
  shows fs directory n →
  ∃ log file_data t,
    get_file_info fs guess_type directory = (log, Return (file_data, t)) ∧
    ∀ p nd, treelib.nodes t !! p = Some nd →
      match treelib.predecessor nd with
      | None => p = directory
      | Some q =>
          ∃ parent, treelib.nodes t !! q = Some parent ∧
            (q = directory ∨ treelib.predecessor parent = Some directory)
      end.
Proof.
  intros Hshows. pose proof Hshows as [_ Hnd].
  destruct (scan_tree directory n Hnd) as (Hroot & Hdir & Hfiles & Hnone).
  eexists _, _, _. split; [by apply get_file_info_exact|].
  intros p nd Hp.
  destruct (decide (p = directory)) as [->|Hpd].
  { rewrite Hdir in Hp. by injection Hp as <-. }
  destruct (Forall_Exists_dec
              (λ f : string * string * N, p ≠ path_of f ∧ p ≠ f.1.1)
              (λ f, p = path_of f ∨ p = f.1.1)
              (λ f, match decide (p = path_of f), decide (p = f.1.1) with
                    | left E, _ => right (or_introl E)
                    | _, left E => right (or_intror E)
                    | right N1, right N2 => left (conj N1 N2)
                    end)
              (files_under directory n)) as [Hall|Hex].
  { rewrite Forall_forall in Hall. by rewrite (Hnone p Hpd Hall) in Hp. }
  apply Exists_exists in Hex as (f & Hf & Hpf).
  destruct (Hfiles f Hf) as (Hne & Hleaf & Hfolder).
  destruct (decide (p = path_of f)) as [->|Hnp].
  - rewrite Hleaf in Hp. injection Hp as <-. cbn [file_node treelib.predecessor].
    eexists. split; [exact Hfolder|].
    case_decide; [by left | by right].
  - destruct Hpf as [? | ->]; [done|].
    rewrite Hfolder, decide_False in Hp by done. injection Hp as <-.
    cbn [folder_node treelib.predecessor]. eexists. split; [exact Hdir | by left].
Qed.

Lemma get_file_info_tree_closed_witness :
  shows sample_fs "d" sample_dir ∧
  ∃ file_data t,
    result (get_file_info sample_fs sample_guess_type "d") = Return (file_data, t) ∧
    size (treelib.nodes t) = 5%nat.
Proof.
  split; [exact sample_shows|].
  destruct (get_file_info_tree_closed sample_fs sample_guess_type "d" _ sample_shows)
    as (log & file_data & t & Hscan & _).
  exists file_data, t. rewrite Hscan. split; [reflexivity|].
  assert (Return (file_data, t) =
          result (get_file_info sample_fs sample_guess_type "d")) as E
    by (by rewrite Hscan).
  vm_compute in E. injection E as E1 E2. rewrite E2. reflexivity.
Defined.

(** X3.  The records of a scan come in the order of the walk: first the
    files of the directory itself, in the order of its listing, then, for
    each subdirectory in the order of the listing, the records of the walk
    of that subdirectory. *)
Theorem get_file_info_walk_order fs guess_type directory sz es :
  shows fs directory (Dir sz es) →
  ∃ log t,
    get_file_info fs guess_type directory =
      (log,
       Return ((record_of guess_type <$> files_here directory es) ++
               flat_map (λ e, if os.is_dir e.2
                              then record_of guess_type <$>
                                     walk_files (os.path_join directory e.1) e.2
                              else []) es,
               t)).
Proof.
  intros Hshows.
  assert (record_of guess_type <$> walk_files directory (Dir sz es) =
          (record_of guess_type <$> files_here directory es) ++
          flat_map (λ e, if os.is_dir e.2
                         then record_of guess_type <$>
                                walk_files (os.path_join directory e.1) e.2
                         else []) es) as <-.
  { cbn [walk_files]. rewrite fmap_app, fmap_flat_map. f_equal.
    apply flat_map_ext. intros e. by destruct (os.is_dir e.2). }
  eexists _, _. by apply get_file_info_exact.
Qed.

Lemma get_file_info_walk_order_witness :
  shows sample_fs "d" sample_dir ∧
  ∃ file_data t,
    result (get_file_info sample_fs sample_guess_type "d") = Return (file_data, t) ∧
    File_Name <$> file_data = ["a.txt"; "b"; "c"].
Proof.
  split; [exact sample_shows|].
  destruct (get_file_info_walk_order sample_fs sample_guess_type "d" _ _ sample_shows)
    as (log & t & Hscan).
  eexists _, t. rewrite Hscan. split; reflexivity.
Defined.

Lemma record_path guess_type (files : list (string * string * N)) :
  (λ r, os.path_join (Folder r) (File_Name r)) <$> (record_of guess_type <$> files)
    = path_of <$> files.
Proof. rewrite <- list_fmap_compose. by apply list_fmap_ext. Qed.

(** X4.  A scan asks the size and the type of each file once, on the path
    joined from the folder and the name of its record, in the order of the
    records. *)
Theorem get_file_info_one_stat_per_record fs guess_type directory n :
  shows fs directory n →
  ∃ log file_data t,
    get_file_info fs guess_type directory = (log, Return (file_data, t)) ∧
    sized log = (λ r, os.path_join (Folder r) (File_Name r)) <$> file_data ∧
    guessed log = (λ r, os.path_join (Folder r) (File_Name r)) <$> file_data.
Proof.
  intros Hshows. eexists _, _, _.
  split; [by apply get_file_info_exact|].
  rewrite record_path.
  destruct (scan_calls_sized directory (walk_files directory n) (root_only directory))
    as [Hsized Hguessed].
  unfold sized, guessed in *. rewrite !omap_app, Hsized, Hguessed. done.
Qed.

Lemma get_file_info_one_stat_per_record_witness :
  shows sample_fs "d" sample_dir ∧
  sized (calls (get_file_info sample_fs sample_guess_type "d"))
    = ["d/a.txt"; "d/b"; "d/sub/c"].
Proof.
  split; [exact sample_shows|].
  destruct (get_file_info_one_stat_per_record sample_fs sample_guess_type "d" _
              sample_shows) as (log & file_data & t & Hscan & Hsized & _).
  rewrite Hscan. cbn [calls fst]. rewrite Hsized.
  assert (Return (file_data, t) =
          result (get_file_info sample_fs sample_guess_type "d")) as E
    by (by rewrite Hscan).
  vm_compute in E. injection E as E1 E2. rewrite E1. reflexivity.
Defined.

(** ** Failures of the scan *)

(** The [repr] of some paths: between single quotes; between double quotes
    for a path with a single quote in it; with the backslash doubled and
    the line feed escaped. *)
Example repr_examples :
  py.repr "r/late.txt" = "'r/late.txt'" ∧
  py.repr "it's" = String "034" ("it's" +:+ String "034" EmptyString) ∧
  py.repr (String "a" (String "092" "b"))
    = String "'" (String "a" (String "092" (String "092" "b'"))) ∧
  py.repr (String "a" (String "010" "b"))
    = String "'" (String "a" (String "092" "nb'")) ∧
  py.repr (String "'" (String "034" EmptyString))
    = String "'" (String "092" (String "'" (String "034" "'"))).
Proof. repeat split. Qed.




(** ** The reporter, call by call *)


Lemma pdf_outputs_blocks df : pdf_outputs (flat_map pdf_block df) = [].
Proof. induction df as [|r df IH]; [done|]. cbn. exact IH. Qed.

Lemma pdf_blocks_no_window df :
  Forall (λ c, opens_window c = false) (flat_map pdf_block df).
Proof.
  induction df as [|r df IH]; [done|]. cbn [flat_map].
  apply Forall_app. split; [repeat constructor | exact IH].
Qed.


Lemma sample_rows_latin1 : Forall (λ row, latin1_row row = true) sample_rows.
Proof. repeat constructor. Defined.


(** The log of a report on at least one record, in its three parts. *)
Lemma display_results_split (r : file_record) (rs : list file_record)
    (file_structure : treelib.Tree) :
  result (display_results (r :: rs) file_structure) = Return () ∧
  ∃ drawing report,
    calls (display_results (r :: rs) file_structure)
      = drawing ++ [qt "show"] ++ report ++ [qt "exec"] ∧
    length (charts drawing) = 5%nat ∧
    pdf_outputs drawing = [] ∧
    charts report = [] ∧
    pdf_outputs report = ["file_analysis_report.pdf"] ∧
    Forall (λ c, opens_window c = false) report.
Proof.
  unfold display_results. cbn [pd.empty pd.DataFrame].
  rewrite save_pdf_report_log.
  cbn [bind perform calls result fst snd app].
  split; [done|].
  set (df := r :: rs).
  exists
    [qt "QApplication"; qt "QScrollArea"; qt "QWidget"; qt "QVBoxLayout";
     qt "setLayout"; qt "setWidget"; qt "setWidgetResizable";
     qt "setWindowTitle"; qt "resize"; qt "GraphicsLayoutWidget";
     qt "addWidget"; addPlot;
     create_bar_chart "File Size Distribution By Type"
       (Sizes (pd.groupby_sum File_Type File_Size_KB df));
     nextRow; addPlot;
     create_bar_chart "File Count Per Folder" (Counts (pd.value_counts Folder df));
     nextRow; addPlot;
     create_bar_chart "File Type Count" (Counts (pd.value_counts File_Type df));
     nextRow; addPlot;
     create_bar_chart "Folder-Wise File Size"
       (Sizes (pd.groupby_sum Folder File_Size_KB df));
     nextRow; addPlot;
     create_bar_chart "File Type-Wise Size Distribution"
       (Sizes (pd.groupby_sum File_Type File_Size_KB df))],
    ([fpdf "FPDF"; fpdf "set_auto_page_break"; fpdf "add_page"; fpdf "set_font";
      pdf_cell "File Analysis Report"; fpdf "ln"] ++
     flat_map pdf_block df ++
     [pdf_output "file_analysis_report.pdf";
      print "PDF report saved as file_analysis_report.pdf"]).
  split; [reflexivity|]. split; [reflexivity|]. split; [reflexivity|].
  pose proof (pdf_outputs_blocks df) as Hout.
  pose proof (pdf_blocks_no_window df) as Hwin.
  split; [|split].
  - unfold charts. rewrite !omap_app. fold charts.
    by rewrite charts_pdf_blocks.
  - unfold pdf_outputs in *. rewrite !omap_app, Hout. by cbn.
  - apply Forall_app. split; [repeat constructor|].
    apply Forall_app. split; [exact Hwin | repeat constructor].
Qed.

(** X8.  On at least one record, the folders, names and types encoding to
    Latin-1, the reporter draws its five charts, then shows the window,
    then writes the PDF to [file_analysis_report.pdf], once, and only then
    enters the event loop, its last call; and it returns. *)
Theorem display_results_order (r : file_record) (rs : list file_record)
    (file_structure : treelib.Tree) :
  Forall (λ row, latin1_row row = true) (r :: rs) →
  result (display_results (r :: rs) file_structure) = Return () ∧
  ∃ drawing report,
    calls (display_results (r :: rs) file_structure)
      = drawing ++ [qt "show"] ++ report ++ [qt "exec"] ∧
    length (charts drawing) = 5%nat ∧
    pdf_outputs drawing = [] ∧
    charts report = [] ∧
    pdf_outputs report = ["file_analysis_report.pdf"] ∧
    Forall (λ c, opens_window c = false) report.
Proof. intros _. apply display_results_split. Qed.

Lemma display_results_order_witness :
  Forall (λ row, latin1_row row = true) sample_rows ∧
  result (display_results sample_rows (root_only "d")) = Return () ∧
  last (calls (display_results sample_rows (root_only "d"))) = Some (qt "exec").
Proof.
  split; [exact sample_rows_latin1|].
  destruct (display_results_order _ _ (root_only "d") sample_rows_latin1)
    as (Hret & drawing & report & Hlog & _).
  split; [exact Hret|].
  unfold sample_rows in *. rewrite Hlog.
  rewrite !app_assoc. apply last_snoc.
Defined.

Lemma display_results_returns file_data file_structure :
  result (display_results file_data file_structure) = Return ().
Proof.
  destruct file_data as [|r rs]; [done|].
  unfold display_results. cbn [pd.empty pd.DataFrame].
  rewrite save_pdf_report_log. reflexivity.
Qed.

(** ** The program, call by call *)

(** [main] around a scan that returns. *)
Lemma main_scan_returns fs guess_type directory log file_data t :
  get_file_info fs guess_type directory = (log, Return (file_data, t)) →
  main fs guess_type directory =
    (input "Enter the directory path: " ::
       log ++ calls (display_results file_data t),
     Return ()).
Proof.
  intros Hscan. unfold main. rewrite Hscan. cbn [perform bind].
  pose proof (display_results_returns file_data t) as Hret.
  destruct (display_results file_data t) as [log' ret]. cbn in Hret. subst ret.
  reflexivity.
Qed.

(** [main] around a scan that raises. *)
Lemma main_scan_raises fs guess_type directory log e :
  get_file_info fs guess_type directory = (log, Raise e) →
  main fs guess_type directory =
    (input "Enter the directory path: " :: log ++ [print (error_line e)],
     Return ()).
Proof.
  intros Hscan. unfold main. rewrite Hscan. by destruct e.
Qed.

(** The scan begins by testing that the directory exists. *)
Lemma get_file_info_first_call fs guess_type directory :
  ∃ rest,
    calls (get_file_info fs guess_type directory) = os_path_exists directory :: rest.
Proof.
  unfold get_file_info. cbn [perform bind].
  match goal with
  | |- context [let '(_, _) := ?c in _] => destruct c as [log' ret]
  end.
  by exists log'.
Qed.

(** X9.  The program never ends on an exception of the scan: whether the
    scan returns or raises, [main] returns, having first asked for the
    directory and tested that it exists. *)
Theorem main_always_returns fs guess_type directory :
  result (main fs guess_type directory) = Return () ∧
  ∃ rest,
    calls (main fs guess_type directory) =
      input "Enter the directory path: " :: os_path_exists directory :: rest.
Proof.
  destruct (get_file_info_first_call fs guess_type directory) as [rest Hfirst].
  destruct (get_file_info fs guess_type directory) as [log [[file_data t]|e]] eqn:Hscan;
    cbn [calls fst] in Hfirst; subst log.
  - rewrite (main_scan_returns _ _ _ _ _ _ Hscan). split; [done|]. eauto.
  - rewrite (main_scan_raises _ _ _ _ _ Hscan). split; [done|]. eauto.
Qed.

(** X10.  When the scan raises, the program prints one line and stops:
    "Error: " and the message for a not-found error, "An unexpected error
    occurred: " and the message for any other; the reporter is not
    called. *)
Theorem main_reports_scan_error fs guess_type directory log e :
  get_file_info fs guess_type directory = (log, Raise e) →
  main fs guess_type directory =
    (input "Enter the directory path: " :: log ++
       [print (match e with
               | FileNotFoundError msg => "Error: " +:+ msg
               | _ => "An unexpected error occurred: " +:+ str_exn e
               end)],
     Return ()).
Proof.
  intros Hscan. rewrite (main_scan_raises _ _ _ _ _ Hscan). by destruct e.
Qed.

Lemma main_reports_scan_error_witness :
  get_file_info racy_fs sample_guess_type "r" =
    ([os_path_exists "r"; treelib_Tree; tree_create_node "r" "r" None;
      os_walk "r"; os_path_getsize "r/early.txt";
      mimetypes_guess_type "r/early.txt"; tree_contains "r";
      tree_create_node "early.txt" "r/early.txt" (Some "r");
      os_path_getsize "r/late.txt"],
     Raise (FileNotFoundError "[Errno 2] No such file or directory: 'r/late.txt'")) ∧
  result (main racy_fs sample_guess_type "r") = Return ().
Proof.
  assert (get_file_info racy_fs sample_guess_type "r" =
    ([os_path_exists "r"; treelib_Tree; tree_create_node "r" "r" None;
      os_walk "r"; os_path_getsize "r/early.txt";
      mimetypes_guess_type "r/early.txt"; tree_contains "r";
      tree_create_node "early.txt" "r/early.txt" (Some "r");
      os_path_getsize "r/late.txt"],
     Raise (FileNotFoundError "[Errno 2] No such file or directory: 'r/late.txt'")))
    as Hscan by (vm_compute; reflexivity).
  split; [exact Hscan|].
  by rewrite (main_reports_scan_error _ _ _ _ _ Hscan).
Defined.

Lemma scan_calls_quiet directory files : ∀ t,
  charts (scan_calls directory t files) = [] ∧
  pdf_outputs (scan_calls directory t files) = [].
Proof.
  induction files as [|g files IH]; intros t; [done|].
  cbn [scan_calls]. unfold charts, pdf_outputs, visit_calls in *.
  rewrite !omap_app. destruct (IH (grow directory t g)) as [-> ->].
  by destruct (treelib.contains t g.1.1).
Qed.

(** X11.  On a directory with at least one file under it, the folders, the
    names and the types of the files encoding to Latin-1, the program
    hands the records of the scan to the reporter: its five charts are the
    five views of those records, the PDF is written once, and the counts
    drawn, by folder and by type, add up to the number of files under the
    directory. *)
Theorem main_reports_the_scan fs guess_type directory n :
  shows fs directory n →
  files_under directory n ≠ [] →
  Forall (λ f, latin1_row (record_of guess_type f) = true)
    (files_under directory n) →
  ∃ log file_data t,
    get_file_info fs guess_type directory = (log, Return (file_data, t)) ∧
    calls (main fs guess_type directory) =
      input "Enter the directory path: " ::
        log ++ calls (display_results file_data t) ∧
    charts (calls (main fs guess_type directory)) =
      (let v := aggregate file_data in
       [("File Size Distribution By Type", Sizes (file_size_by_type v));
        ("File Count Per Folder", Counts (folder_count v));
        ("File Type Count", Counts (file_type_count v));
        ("Folder-Wise File Size", Sizes (folder_size v));
        ("File Type-Wise Size Distribution", Sizes (type_size_dist v))]) ∧
    pdf_outputs (calls (main fs guess_type directory)) = ["file_analysis_report.pdf"] ∧
    pd.series_sum Nat.add 0%nat (folder_count (aggregate file_data))
      = length (files_under directory n) ∧
    pd.series_sum Nat.add 0%nat (file_type_count (aggregate file_data))
      = length (files_under directory n).
Proof.
  intros Hshows Hsome _.
  pose proof (get_file_info_exact fs guess_type directory n Hshows) as Hscan.
  pose proof (walk_files_perm n directory) as Hperm.
  set (files := walk_files directory n) in *.
  eexists _, _, _. split; [exact Hscan|].
  rewrite (main_scan_returns _ _ _ _ _ _ Hscan). cbn [calls fst].
  destruct (scan_calls_quiet directory files (root_only directory))
    as [Hcharts Hpdf].
  assert (∃ r rs, record_of guess_type <$> files = r :: rs) as (r & rs & Hrows).
  { destruct files as [|f files']; [|by eauto].
    symmetry in Hperm. by apply Permutation_nil_r in Hperm. }
  rewrite Hrows.
  destruct (display_results_split r rs
              (foldl (grow directory) (root_only directory) files))
    as (_ & drawing & report & Hlog & _ & Hd & _ & Hr & _).
  split; [done|]. split; [|split; [|split]].
  - unfold charts. cbn [omap list_omap app]. rewrite !omap_app. fold charts.
    unfold charts in Hcharts. rewrite Hcharts. cbn [app].
    apply display_results_charts.
  - rewrite Hlog. unfold pdf_outputs in *. cbn [omap list_omap].
    rewrite !omap_app, Hpdf, Hd, Hr. by cbn.
  - rewrite <- Hrows. unfold aggregate. cbn [folder_count].
    rewrite value_counts_total, length_fmap. by apply Permutation_length.
  - rewrite <- Hrows. unfold aggregate. cbn [file_type_count].
    rewrite value_counts_total, length_fmap. by apply Permutation_length.
Qed.

Lemma main_reports_the_scan_witness :
  shows sample_fs "d" sample_dir ∧
  files_under "d" sample_dir ≠ [] ∧
  Forall (λ f, latin1_row (record_of sample_guess_type f) = true)
    (files_under "d" sample_dir) ∧
  pdf_outputs (calls (main sample_fs sample_guess_type "d"))
    = ["file_analysis_report.pdf"].
Proof.
  assert (files_under "d" sample_dir ≠ []) as Hsome by done.
  assert (Forall (λ f, latin1_row (record_of sample_guess_type f) = true)
            (files_under "d" sample_dir)) as Htext by (repeat constructor).
  split; [exact sample_shows|]. split; [exact Hsome|]. split; [exact Htext|].
  destruct (main_reports_the_scan sample_fs sample_guess_type "d" _
              sample_shows Hsome Htext)
    as (log & file_data & t & _ & _ & _ & Hpdf & _).
  exact Hpdf.
Defined.

(** ** The scan, folder by folder *)

Lemma rows_of_records guess_type folder (files : list (string * string * N)) :
  rows_of Folder folder (record_of guess_type <$> files)
    = record_of guess_type <$> files_in folder files.
Proof.
  unfold rows_of, files_in. induction files as [|f files IH]; [done|].
  rewrite fmap_cons, !filter_cons. cbn [record_of Folder].
  case_decide; [by rewrite fmap_cons, IH | exact IH].
Qed.

(** X12.  After a scan, the count series by folder holds, for a folder,
    the number of files lying directly in it, and has no key for a folder
    with no file of its own; the size series by folder has the same keys,
    and holds for a folder the float64 sum of the sizes of those files in
    the order of the walk. *)
Theorem folder_views_of_scan fs guess_type directory n :
  shows fs directory n →
  ∃ log file_data t,
    get_file_info fs guess_type directory = (log, Return (file_data, t)) ∧
    ∀ folder,
      let here := files_in folder (files_under directory n) in
      let walked := files_in folder (walk_files directory n) in
      walked ≡ₚ here ∧
      folder_count (aggregate file_data) !! folder =
        (if decide (here = []) then None else Some (length here)) ∧
      folder_size (aggregate file_data) !! folder =
        (if decide (here = []) then None
         else Some (pd.kahan_sum (File_Size <$> (record_of guess_type <$> walked)))).
Proof.
  intros Hshows.
  pose proof (get_file_info_exact fs guess_type directory n Hshows) as Hscan.
  pose proof (walk_files_perm n directory) as Hperm.
  eexists _, _, _. split; [exact Hscan|].
  intros folder here walked.
  assert (walked ≡ₚ here) as Hhere.
  { unfold here, walked, files_in. by rewrite Hperm. }
  split; [exact Hhere|].
  unfold aggregate. cbn [folder_count folder_size].
  rewrite value_counts_lookup, groupby_sum_lookup, rows_of_records.
  fold walked.
  destruct walked as [|f fs'] eqn:Hin.
  - apply Permutation_nil_l in Hhere. by rewrite !decide_True.
  - assert (here ≠ []) as Hne.
    { intros E. rewrite E in Hhere. by apply Permutation_nil_r in Hhere. }
    rewrite !decide_False by done. rewrite fmap_cons. split; [|done].
    f_equal. rewrite <- fmap_cons, length_fmap. by apply Permutation_length.
Qed.

Lemma folder_views_of_scan_witness :
  shows sample_fs "d" sample_dir ∧
  ∃ file_data t,
    result (get_file_info sample_fs sample_guess_type "d") = Return (file_data, t) ∧
    folder_count (aggregate file_data) !! "d" = Some 2%nat ∧
    folder_count (aggregate file_data) !! "d/sub" = Some 1%nat.
Proof.
  split; [exact sample_shows|].
  destruct (folder_views_of_scan sample_fs sample_guess_type "d" _ sample_shows)
    as (log & file_data & t & Hscan & Hviews).
  exists file_data, t. rewrite Hscan. split; [reflexivity|].
  split; [exact (proj1 (proj2 (Hviews "d")))
         | exact (proj1 (proj2 (Hviews "d/sub")))].
Defined.

(** ** Sizes *)

(** [round(file_size / 1024, 2)] on integers. *)
Lemma size_kb_unfold (bytes : Z) :
  round2 (true_div bytes 1024) =
    if 2 * ((bytes * 100) `mod` 1024) <? 1024 then (bytes * 100) `div` 1024
    else if 1024 <? 2 * ((bytes * 100) `mod` 1024) then (bytes * 100) `div` 1024 + 1
    else if Z.even ((bytes * 100) `div` 1024) then (bytes * 100) `div` 1024
    else (bytes * 100) `div` 1024 + 1.
Proof.
  unfold round2, true_div. cbn [Qdiv Qmult Qinv inject_Z Qnum Qden].
  cbv zeta. by rewrite Z.mul_1_r.
Qed.




(** X15.  A file of a whole number of quarter kilobytes, of less than 2^53
    bytes, is recorded exactly: 256 k bytes give 0.25 k, as the double
    nearest to that number. *)
Theorem size_kb_exact_quarters (k : N) :
  (256 * k < 2 ^ 53)%N →
  size_kb (256 * k) = 25 * Z.of_N k ∧
  (kb (size_kb (256 * k)) == true_div (Z.of_N (256 * k)) 1024)%Q ∧
  f64.size_kb (256 * k) = f64.of_hundredths (25 * Z.of_N k).
Proof.
  intros Hlt.
  assert (size_kb (256 * k) = 25 * Z.of_N k) as Hexact.
  { rewrite size_kb_exact by done. rewrite size_kb_unfold.
    replace (Z.of_N (256 * k) * 100) with (25 * Z.of_N k * 1024) by lia.
    rewrite Z.mod_mul, Z.div_mul by done. reflexivity. }
  split; [exact Hexact|]. rewrite size_kb_float by done. rewrite Hexact.
  split; [|done].
  unfold kb, true_div, Qeq. cbn [Qdiv Qmult Qinv inject_Z Qnum Qden]. lia.
Qed.

Lemma size_kb_exact_quarters_witness :
  (256 * 6 < 2 ^ 53)%N ∧ size_kb (256 * 6) = 150 ∧
  f64.size_kb (256 * 6) = S754_finite false 6755399441055744 (-52).
Proof.
  assert (256 * 6 < 2 ^ 53)%N as Hlt by reflexivity.
  split; [exact Hlt|].
  destruct (size_kb_exact_quarters 6 Hlt) as (Hsize & _ & Hdouble).
  split; [exact Hsize|]. rewrite Hdouble. reflexivity.
Defined.

(** X16.  A size that falls half way between two hundredths goes to the
    even one, not always up: 256 k + 128 bytes, which is 0.25 k + 0.125,
    give 0.25 k + 0.12 when k is even and 0.25 k + 0.13 when k is odd, for
    a file of less than 2^53 bytes. *)
Theorem size_kb_ties_to_even (k : N) :
  (256 * k + 128 < 2 ^ 53)%N →
  size_kb (256 * k + 128) =
    (if Z.even (Z.of_N k) then 25 * Z.of_N k + 12 else 25 * Z.of_N k + 13) ∧
  f64.size_kb (256 * k + 128) = f64.of_hundredths (size_kb (256 * k + 128)).
Proof.
  intros Hlt. split; [|by apply size_kb_float].
  rewrite size_kb_exact by done. rewrite size_kb_unfold.
  replace (Z.of_N (256 * k + 128) * 100)
    with (512 + (25 * Z.of_N k + 12) * 1024) by lia.
  rewrite Z.mod_add, Z.div_add by done.
  change (512 `mod` 1024) with 512. change (512 `div` 1024) with 0.
  change (2 * 512 <? 1024) with false. change (1024 <? 2 * 512) with false.
  cbv iota. rewrite Z.add_0_l.
  replace (Z.even (25 * Z.of_N k + 12)) with (Z.even (Z.of_N k)).
  2:{ rewrite Z.even_add, Z.even_mul. by destruct (Z.even (Z.of_N k)). }
  destruct (Z.even (Z.of_N k)); lia.
Qed.

Lemma size_kb_ties_to_even_witness :
  (256 * 0 + 128 < 2 ^ 53)%N ∧ (256 * 1 + 128 < 2 ^ 53)%N ∧
  size_kb (256 * 0 + 128) = 12 ∧ size_kb (256 * 1 + 128) = 38.
Proof.
  assert (256 * 0 + 128 < 2 ^ 53)%N as H0 by reflexivity.
  assert (256 * 1 + 128 < 2 ^ 53)%N as H1 by reflexivity.
  split; [exact H0|]. split; [exact H1|].
  split; [exact (proj1 (size_kb_ties_to_even 0 H0))
         | exact (proj1 (size_kb_ties_to_even 1 H1))].
Defined.

(** X22.  For a file of less than 2^53 bytes the float64 arithmetic of the
    scan loses nothing before the rounding to two decimals: the quotient
    by 1024 is exact, the size recorded is the two-decimal number nearest
    to the quotient, a tie going to the even hundredth, and the record
    holds the double nearest to that number. *)
Theorem size_kb_below_2_53 (file_size : N) :
  (file_size < 2 ^ 53)%N →
  (f64.to_Q (f64.div_pow2 (Z.of_N file_size) 10)
   == true_div (Z.of_N file_size) 1024)%Q ∧
  size_kb file_size = round2 (true_div (Z.of_N file_size) 1024) ∧
  f64.size_kb file_size
    = f64.of_hundredths (round2 (true_div (Z.of_N file_size) 1024)).
Proof.
  intros Hlt. split; [by apply div_pow2_value|]. split; [by apply size_kb_exact|].
  rewrite size_kb_float by done. by rewrite size_kb_exact.
Qed.

Lemma size_kb_below_2_53_witness :
  (2048 < 2 ^ 53)%N ∧ size_kb 2048 = 200 ∧
  f64.size_kb 2048 = S754_finite false 4503599627370496 (-51).
Proof.
  assert (2048 < 2 ^ 53)%N as Hlt by reflexivity.
  split; [exact Hlt|].
  destruct (size_kb_below_2_53 2048 Hlt) as (_ & Hsize & Hdouble).
  split; [rewrite Hsize | rewrite Hdouble]; reflexivity.
Defined.
